(** * mzy-repack: a shallow embedding of [mzy-repack.py]

    The script unpacks the images of a comic e-book with Calibre's
    [ebook-convert] and repacks them with a portable KCC ([kcc-c2e.exe]).
    Everything it does is an effect: it prints, it reads and writes the
    file system and it runs two external programs.  The embedding threads
    an explicit world (file system plus a chronological event log) through
    a small state-and-exception monad; the external programs, the zip
    parser and the choice of the temporary directory name are fields of an
    environment record, so that every theorem holds for all of them.

    Modelling decisions, stated once:
    - a Python [str] is a Rocq [string] (a sequence of 8-bit code units);
      [str.lower] acts on [A-Z] only, which decides the same names as the
      Unicode version for the four ASCII extensions that are tested;
    - a [pathlib.Path] is kept in parsed form (anchor and components), with
      the POSIX flavour of parsing;
    - the file system is a finite map keyed by parsed paths; paths are
      compared lexically (no symbolic links, no [..] resolution, no current
      directory); an operation fails for the reasons the map can show (a
      missing parent, a file or a directory in the way), not for lack of
      permission or space;
    - the final [input()] of the script is an event of the log. *)

From Stdlib Require Import Ascii String ZArith.
From Stdlib.Strings Require Import Byte.
From stdpp Require Import base option list gmap strings sorting fin_maps.

Local Open Scope stdpp_scope.

(** ** Python strings *)

Module Str.

Definition chars (s : string) : list ascii := list_ascii_of_string s.
Definition text (l : list ascii) : string := string_of_list_ascii l.

(** [len(s)] *)
Definition len (s : string) : nat := length (chars s).

(** One character of [str.lower()]. *)
Definition lower_char (c : ascii) : ascii :=
  let n := nat_of_ascii c in
  if (65 <=? n)%nat && (n <=? 90)%nat then ascii_of_nat (n + 32) else c.

(** [s.lower()] *)
Definition lower (s : string) : string := text (lower_char <$> chars s).

(** [s.endswith(suf)] *)
Definition endswith (s suf : string) : bool :=
  bool_decide (chars suf `suffix_of` chars s).

(** [s.endswith((t1, t2, ...))]: any of the tuple. *)
Definition endswith_any (s : string) (sufs : list string) : bool :=
  existsb (endswith s) sufs.

(** [s.rfind('.')], with [None] for Python's [-1]. *)
Fixpoint rfind_dot_from (i : nat) (l : list ascii) : option nat :=
  match l with
  | [] => None
  | c :: l' =>
      match rfind_dot_from (S i) l' with
      | Some j => Some j
      | None => if Ascii.eqb c "."%char then Some i else None
      end
  end.
Definition rfind_dot (s : string) : option nat := rfind_dot_from 0 (chars s).

(** [s[i:]] and [s[:i]] *)
Definition slice_from (i : nat) (s : string) : string := text (drop i (chars s)).
Definition slice_to (i : nat) (s : string) : string := text (take i (chars s)).

(** [s.split('/')] *)
Fixpoint split_slash_go (cur : list ascii) (l : list ascii) : list string :=
  match l with
  | [] => [text (reverse cur)]
  | c :: l' =>
      if Ascii.eqb c "/"%char
      then text (reverse cur) :: split_slash_go [] l'
      else split_slash_go (c :: cur) l'
  end.
Definition split_slash (s : string) : list string := split_slash_go [] (chars s).

(** ['/'.join(parts)] *)
Fixpoint join_slash (parts : list string) : string :=
  match parts with
  | [] => ""
  | [p] => p
  | p :: rest => p +:+ "/" +:+ join_slash rest
  end.

(** ["-" * n] *)
Definition dashes (n : nat) : string := text (replicate n "-"%char).

(** *** Decimal formatting of natural numbers *)

Definition digit_char (d : nat) : ascii := ascii_of_nat (48 + d).

Fixpoint digits_go (fuel n : nat) (acc : list ascii) : list ascii :=
  match fuel with
  | 0 => acc
  | S fuel' =>
      let acc' := digit_char (n mod 10) :: acc in
      if (n / 10 =? 0)%nat then acc' else digits_go fuel' (n / 10) acc'
  end.

(** The decimal digits of [n], most significant first; [str(n)]. *)
Definition digits (n : nat) : list ascii := digits_go (S n) n [].
Definition of_nat (n : nat) : string := text (digits n).

(** [f"{n:04d}"]: decimal, padded on the left with ['0'] up to width 4
    (wider numbers are not truncated). *)
Definition format_04d (n : nat) : string :=
  let ds := digits n in
  text (replicate (4 - length ds) "0"%char ++ ds).

(** [str(z)] for an integer (exit statuses may be negative). *)
Definition of_Z (z : Z) : string :=
  match z with
  | Z.neg p => "-" +:+ of_nat (Pos.to_nat p)
  | _ => of_nat (Z.to_nat z)
  end.

End Str.

(** ** Parsed paths ([pathlib], POSIX flavour) *)

(** [anchor] is the root (["/"], ["//"] or empty for a relative path);
    [tail] holds the components below it. *)
Record Path := mkPath { anchor : string; tail : list string }.

#[global] Instance Path_eq_dec : EqDecision Path.
Proof. solve_decision. Defined.

#[global] Instance Path_countable : Countable Path.
Proof.
  refine (inj_countable' (λ p, (anchor p, tail p)) (λ x, mkPath x.1 x.2) _).
  by intros [].
Defined.

Module pathlib.

(** [posixpath.splitroot]: a leading slash is the root; exactly two
    leading slashes form the root ["//"]. *)
Definition splitroot (s : string) : string * string :=
  match Str.chars s with
  | "/"%char :: "/"%char :: "/"%char :: _ => ("/", Str.slice_from 1 s)
  | "/"%char :: "/"%char :: _ => ("//", Str.slice_from 2 s)
  | "/"%char :: _ => ("/", Str.slice_from 1 s)
  | _ => ("", s)
  end.

Definition keep_component (x : string) : bool :=
  negb (String.eqb x "") && negb (String.eqb x ".").

(** [Path(s)]: empty components and [.] are dropped, [..] is kept. *)
Definition parse (s : string) : Path :=
  let '(root, rel) := splitroot s in
  mkPath root (List.filter keep_component (Str.split_slash rel)).

(** [str(p)] *)
Definition to_str (p : Path) : string :=
  if String.eqb (anchor p) "" then
    match tail p with
    | [] => "."
    | _ => Str.join_slash (tail p)
    end
  else anchor p +:+ Str.join_slash (tail p).

(** [p.name] *)
Definition name (p : Path) : string := List.last (tail p) "".

(** [p.parent]; the parent of an anchor or of the empty path is itself. *)
Definition parent (p : Path) : Path := mkPath (anchor p) (removelast (tail p)).

(** The position of the dot that starts the suffix:
    [i = name.rfind('.')] when [0 < i < len(name) - 1] (the definition of
    [pathlib] up to Python 3.13; later versions differ on names that
    begin or end with dots only). *)
Definition suffix_index (nm : string) : option nat :=
  match Str.rfind_dot nm with
  | Some i => if (0 <? i)%nat && (i <? Str.len nm - 1)%nat then Some i else None
  | None => None
  end.

(** [p.suffix] *)
Definition suffix (p : Path) : string :=
  match suffix_index (name p) with
  | Some i => Str.slice_from i (name p)
  | None => ""
  end.

(** [p.stem] *)
Definition stem (p : Path) : string :=
  match suffix_index (name p) with
  | Some i => Str.slice_to i (name p)
  | None => name p
  end.

(** [p / s]: an absolute segment replaces the path, a relative one is
    parsed and appended. *)
Definition joinpath (p : Path) (s : string) : Path :=
  match Str.chars s with
  | "/"%char :: _ => parse s
  | _ => mkPath (anchor p) (tail p ++ tail (parse s))
  end.

(** [q] is [t] or lies below it. *)
Definition under (t q : Path) : Prop :=
  anchor t = anchor q ∧ tail t `prefix_of` tail q.

#[global] Instance under_dec t q : Decision (under t q).
Proof. unfold under. apply _. Defined.

End pathlib.

Infix "/:" := pathlib.joinpath (at level 40, left associativity).

(** ** Exceptions *)

(** The exception classes the script can meet.  All of them derive from
    [Exception]; the first five derive from [OSError]. *)
Inductive exn : Type :=
  | FileNotFoundError
  | FileExistsError
  | IsADirectoryError
  | NotADirectoryError
  | PermissionError
  | CalledProcessError (returncode : Z) (stdout stderr : string)
  | BadZipFile
  | OtherException (what : string).

#[global] Instance exn_eq_dec : EqDecision exn.
Proof. intros x y. unfold Decision. decide equality; apply (decide (_ = _)). Defined.

Definition is_OSError (e : exn) : bool :=
  match e with
  | FileNotFoundError | FileExistsError | IsADirectoryError
  | NotADirectoryError | PermissionError => true
  | _ => false
  end.

Definition is_BadZipFile (e : exn) : bool :=
  match e with BadZipFile => true | _ => false end.

Definition is_CalledProcessError (e : exn) : bool :=
  match e with CalledProcessError _ _ _ => true | _ => false end.

(** [except Exception] *)
Definition is_Exception (e : exn) : bool := true.

(** [str(e)], as interpolated in two diagnostics. *)
Definition exn_str (e : exn) : string :=
  match e with
  | FileNotFoundError => "[Errno 2] No such file or directory"
  | FileExistsError => "[Errno 17] File exists"
  | IsADirectoryError => "[Errno 21] Is a directory"
  | NotADirectoryError => "[Errno 20] Not a directory"
  | PermissionError => "[Errno 13] Permission denied"
  | CalledProcessError rc _ _ =>
      "Command returned non-zero exit status " +:+ Str.of_Z rc +:+ "."
  | BadZipFile => "File is not a zip file"
  | OtherException what => what
  end.

(** The outcome of a Python call: a value or a raised exception. *)
Inductive py_result (A : Type) : Type :=
  | Ret (a : A)
  | Raise (e : exn).
Arguments Ret {A} a.
Arguments Raise {A} e.

(** ** The file system *)

#[global] Instance byte_eq_dec : EqDecision byte := Byte.byte_eq_dec.

Inductive node : Type :=
  | File (data : list byte)
  | Dir.

#[global] Instance node_eq_dec : EqDecision node.
Proof. solve_decision. Defined.

Abbreviation FS := (gmap Path node).

Module os.

(** What is at [p].  An anchor and the empty relative path (the root and
    the current directory) always are directories. *)
Definition node_at (fs : FS) (p : Path) : option node :=
  match tail p with
  | [] => Some Dir
  | _ => fs !! p
  end.

Definition is_file (fs : FS) (p : Path) : bool :=
  match node_at fs p with Some (File _) => true | _ => false end.

Definition is_dir (fs : FS) (p : Path) : bool :=
  match node_at fs p with Some Dir => true | _ => false end.

Definition exists_ (fs : FS) (p : Path) : bool :=
  match node_at fs p with Some _ => true | None => false end.

(** [os.mkdir(p)] *)
Definition mkdir (p : Path) (fs : FS) : FS * py_result unit :=
  match node_at fs p with
  | Some _ => (fs, Raise FileExistsError)
  | None =>
      match node_at fs (pathlib.parent p) with
      | Some Dir => (<[p := Dir]> fs, Ret tt)
      | Some (File _) => (fs, Raise NotADirectoryError)
      | None => (fs, Raise FileNotFoundError)
      end
  end.

(** [Path.mkdir(parents, exist_ok)], as [pathlib] writes it: try
    [os.mkdir]; on [FileNotFoundError] create the parent first (when
    [parents]) and retry without [parents]; on any other [OSError] give
    in only when [exist_ok] and the path is a directory.  The fuel bounds
    the climb to the parents and is the number of components. *)
Fixpoint Path_mkdir_go (fuel : nat) (parents exist_ok : bool)
    (p : Path) (fs : FS) : FS * py_result unit :=
  match mkdir p fs with
  | (fs', Ret tt) => (fs', Ret tt)
  | (fs', Raise FileNotFoundError) =>
      if negb parents || bool_decide (pathlib.parent p = p)
      then (fs', Raise FileNotFoundError)
      else
        match fuel with
        | 0 => (fs', Raise FileNotFoundError)
        | S fuel' =>
            match Path_mkdir_go fuel' true true (pathlib.parent p) fs' with
            | (fs1, Ret tt) => Path_mkdir_go fuel' false exist_ok p fs1
            | (fs1, Raise e) => (fs1, Raise e)
            end
        end
  | (fs', Raise e) =>
      if negb exist_ok || negb (is_dir fs' p)
      then (fs', Raise e)
      else (fs', Ret tt)
  end.

Definition Path_mkdir (parents exist_ok : bool) (p : Path) (fs : FS)
    : FS * py_result unit :=
  Path_mkdir_go (length (tail p)) parents exist_ok p fs.

(** [with open(p, 'wb') as f: f.write(data)]: creates or replaces the
    regular file at [p]. *)
Definition write_bytes (p : Path) (data : list byte) (fs : FS)
    : FS * py_result unit :=
  match node_at fs p with
  | Some Dir => (fs, Raise IsADirectoryError)
  | _ =>
      match node_at fs (pathlib.parent p) with
      | Some Dir => (<[p := File data]> fs, Ret tt)
      | Some (File _) => (fs, Raise NotADirectoryError)
      | None => (fs, Raise FileNotFoundError)
      end
  end.

(** [shutil.rmtree(t)]: [t] and everything below it disappear. *)
Definition rmtree (t : Path) (fs : FS) : FS :=
  filter (λ kv, ¬ pathlib.under t kv.1) fs.

End os.

(** ** Zip archives *)

(** A parsed archive: the central directory in its order, every entry
    with its name and with what [ZipFile.read] gives for it (the bytes, or
    the exception raised when the entry cannot be decoded). *)
Definition zip_archive : Type := list (string * py_result (list byte)).

Module zipfile.

(** [zip_ref.namelist()] *)
Definition namelist (z : zip_archive) : list string := z.*1.

(** [zip_ref.read(name)]: the name is looked up in [NameToInfo], where a
    later entry of the same name has replaced an earlier one. *)
Fixpoint read (z : zip_archive) (nm : string) : py_result (list byte) :=
  match z with
  | [] => Raise (OtherException "KeyError")
  | (n, r) :: z' =>
      if bool_decide (nm ∈ namelist z') then read z' nm
      else if String.eqb n nm then r
      else Raise (OtherException "KeyError")
  end.

End zipfile.

(** ** What the script prints *)

(** One constructor for each [print] of the source, with the values it
    interpolates; [render] gives the text. *)
Inductive msg : Type :=
  (* repack_with_kcc *)
  | MsgKccStage
  | MsgKccNotFound (exe : string)
  | MsgKccHint
  | MsgKccDetected (kcc_path : Path)
  | MsgKccFolder (folder_name : string)
  | MsgKccProfile (profile : string)
  | MsgKccSuccess (file_name : string)
  | MsgKccOutputMissing (file_name : string)
  | MsgKccFailed
  | MsgKccReturnCode (rc : Z)
  | MsgKccOutput (stdout stderr : string)
  | MsgKccUnknown (e : exn)
  (* unpack_comic_with_calibre *)
  | MsgNoEbookConvert
  | MsgInstallCalibre
  | MsgOutputDir (output_dir : Path)
  | MsgCallingCalibre
  | MsgConvertOk
  | MsgConvertFailed (e : exn)
  | MsgExtracting
  | MsgNoImages
  | MsgExtracted (count : nat)
  | MsgBadZip
  (* main *)
  | MsgRule
  | MsgBanner
  | MsgDepends
  | MsgDependsCalibre
  | MsgDependsKcc
  | MsgUsage
  | MsgUsageDrag
  | MsgDetected (count : nat)
  | MsgProgress (i total : nat)
  | MsgFile (file_name : string)
  | MsgDashes (width : nat)
  | MsgBlank
  | MsgAllDone
  | MsgPressEnter.

#[global] Instance msg_eq_dec : EqDecision msg.
Proof. intros x y. unfold Decision. decide equality; apply (decide (_ = _)). Defined.

Definition render (m : msg) : string :=
  match m with
  | MsgKccStage => String "010" "--- KCC 重新打包階段 ---"
  | MsgKccNotFound exe =>
      "❌ 致命錯誤: 在腳本所在的目錄找不到 KCC 執行檔 '" +:+ exe +:+ "'"
  | MsgKccHint => "   請確保 kcc-c2e.exe 和您的 Python 腳本放在同一個資料夾中。"
  | MsgKccDetected p => "🔧 自動偵測到 KCC: '" +:+ pathlib.to_str p +:+ "'"
  | MsgKccFolder n => "   準備處理資料夾: '" +:+ n +:+ "'"
  | MsgKccProfile p => "   裝置設定檔: " +:+ p
  | MsgKccSuccess n => "✅ KCC 打包成功！優化後的檔案已儲存為: '" +:+ n +:+ "'"
  | MsgKccOutputMissing n =>
      "⚠️ KCC 執行完畢，但未找到預期的輸出檔案 '" +:+ n +:+ "'。請檢查輸出目錄。"
  | MsgKccFailed => "❌ 錯誤: KCC 執行失敗。"
  | MsgKccReturnCode rc => "   返回碼: " +:+ Str.of_Z rc
  | MsgKccOutput out err => "   KCC 輸出訊息: " +:+ out +:+ err
  | MsgKccUnknown e => "❌ 執行 KCC 時發生未知錯誤: " +:+ exn_str e
  | MsgNoEbookConvert => "❌ 致命錯誤: 找不到 'ebook-convert' 指令。"
  | MsgInstallCalibre => "   請先安裝 Calibre，並確保其命令列工具已加入系統 PATH。"
  | MsgOutputDir p => "📂 輸出資料夾已建立: '" +:+ pathlib.to_str p +:+ "'"
  | MsgCallingCalibre => "🔧 正在呼叫 Calibre 將 mobi 轉換為 zip..."
  | MsgConvertOk => "✅ Calibre 轉換成功！"
  | MsgConvertFailed e => "❌ 錯誤: Calibre 的 ebook-convert 工具執行失敗。" +:+ exn_str e
  | MsgExtracting => "🔧 正在從 zip 檔案中提取圖片..."
  | MsgNoImages => "⚠️ 警告: 在轉換後的檔案中找不到任何圖片。"
  | MsgExtracted n => "✅ 提取成功！共找到並儲存 " +:+ Str.of_nat n +:+ " 張圖片。"
  | MsgBadZip => "❌ 錯誤: Calibre 輸出的不是一個有效的 zip 檔案。"
  | MsgRule => Str.text (replicate 60 "="%char)
  | MsgBanner => " MOBI 漫畫處理工作流 v5.1 (Calibre + 可攜式KCC)"
  | MsgDepends => "依賴工具："
  | MsgDependsCalibre => "  1. Calibre (需安裝並加入系統 PATH)"
  | MsgDependsKcc => "  2. KCC (kcc-c2e.exe 需與本腳本在同一資料夾)"
  | MsgUsage => String "010" "用法說明："
  | MsgUsageDrag => "  將一個或多個 .mobi 檔案拖曳到 .bat 批次檔上即可。" +:+ String "010" ""
  | MsgDetected n => "▶️ 偵測到 " +:+ Str.of_nat n +:+ " 個檔案，準備開始處理..." +:+ String "010" ""
  | MsgProgress i total =>
      "--- [ 處理中: " +:+ Str.of_nat i +:+ "/" +:+ Str.of_nat total +:+ " ] ---"
  | MsgFile n => "📄 檔案: " +:+ n
  | MsgDashes w => Str.dashes w
  | MsgBlank => ""
  | MsgAllDone => "✅ 所有任務皆已完成！"
  | MsgPressEnter => String "010" "按下 Enter 鍵結束程式..."
  end.

(** ** The world and the monad *)

(** What the script does to its surroundings, in the order it does it. *)
Inductive event : Type :=
  | EPrint (m : msg)                               (* print(...) *)
  | EMkdir (p : Path)                              (* p.mkdir(...) returned *)
  | EMkdtemp (t : Path)                            (* TemporaryDirectory() entered *)
  | ERmtree (t : Path)                             (* TemporaryDirectory() left *)
  | ERun (command : list string) (shell : bool)    (* subprocess.run(...) called *)
  | EWrite (p : Path) (data : list byte)           (* a file written *)
  | EInput.                                        (* input() *)

#[global] Instance event_eq_dec : EqDecision event.
Proof. intros x y. unfold Decision. decide equality; apply (decide (_ = _)). Defined.

Record World := mkWorld { fs : FS; log : list event }.

(** A computation threads the world and ends in a value or an exception. *)
Definition M (A : Type) : Type := World → World * py_result A.

Definition ret {A} (a : A) : M A := λ w, (w, Ret a).

Definition raise {A} (e : exn) : M A := λ w, (w, Raise e).

Definition bind {A B} (c : M A) (k : A → M B) : M B :=
  λ w, match c w with
       | (w', Ret a) => k a w'
       | (w', Raise e) => (w', Raise e)
       end.

Declare Scope py_scope.
Delimit Scope py_scope with py.
Notation "'let*' x ':=' c 'in' k" := (bind c (λ x, k))
  (at level 10, x name, c at level 100, k at level 200) : py_scope.
Notation "c ;; k" := (bind c (λ _, k))
  (at level 100, right associativity) : py_scope.

(** [try: body  except <catches> as e: handler e] *)
Definition try_except {A} (body : M A) (catches : exn → bool)
    (handler : exn → M A) : M A :=
  λ w, match body w with
       | (w', Raise e) => if catches e then handler e w' else (w', Raise e)
       | r => r
       end.

(** [try: body  except <c1> as e: h1 e  except <c2> as e: h2 e]: the
    handlers are siblings, the second does not guard the first. *)
Definition try_except2 {A} (body : M A) (c1 : exn → bool) (h1 : exn → M A)
    (c2 : exn → bool) (h2 : exn → M A) : M A :=
  λ w, match body w with
       | (w', Raise e) =>
           if c1 e then h1 e w'
           else if c2 e then h2 e w'
           else (w', Raise e)
       | r => r
       end.

Definition emit (ev : event) : M unit :=
  λ w, (mkWorld (fs w) (log w ++ [ev]), Ret tt).

Definition print (m : msg) : M unit := emit (EPrint m).

(** Lift an operation of the file system. *)
Definition on_fs {A} (op : FS → FS * py_result A) : M A :=
  λ w, let '(fs', r) := op (fs w) in (mkWorld fs' (log w), r).

Definition read_fs {A} (q : FS → A) : M A := λ w, (w, Ret (q (fs w))).

(** [for i, x in enumerate(xs, start): body i x] *)
Fixpoint for_enumerate {A} (start : nat) (xs : list A) (body : nat → A → M unit)
    : M unit :=
  match xs with
  | [] => ret tt
  | x :: xs' => (body start x ;; for_enumerate (S start) xs' body)%py
  end.

(** ** The environment *)

(** What lies outside the script.  [which] answers [shutil.which];
    [run] is the behaviour of external programs under
    [subprocess.run(command, check=True, ...)]: from the command, the
    [shell] flag and the file system it gives the new file system and the
    exception raised, if any ([CalledProcessError] for a non-zero exit
    status); [parse_zip] is the zip reader ([None]: not a zip file);
    [mkdtemp] names the temporary directory; [script_dir] is the directory
    of the script ([Path(__file__).parent], or the current directory when
    [__file__] is not defined). *)
Record Env := mkEnv {
  which : string → FS → option string;
  run : list string → bool → FS → FS * option exn;
  parse_zip : list byte → option zip_archive;
  mkdtemp : FS → Path;
  script_dir : Path
}.

(** The settings at the top of the script. *)
Record Config := mkConfig {
  KCC_DEVICE_PROFILE : string;
  REPACK_AFTER_UNPACK : bool;
  KCC_EXE_FILENAME : string
}.

Definition default_config : Config :=
  {| KCC_DEVICE_PROFILE := "KPW5";
     REPACK_AFTER_UNPACK := true;
     KCC_EXE_FILENAME := "kcc-c2e.exe" |}.

(** ** The script *)

Section Script.

Context (E : Env) (C : Config).

Local Open Scope py_scope.

(** [subprocess.run(command, check=True, capture_output=True, ...)] *)
Definition subprocess_run (command : list string) (shell : bool) : M unit :=
  emit (ERun command shell) ;;
  let* failure := on_fs (λ fs0, let '(fs1, r) := run E command shell fs0 in
                                 (fs1, Ret r)) in
  match failure with
  | Some e => raise e
  | None => ret tt
  end.

(** [with tempfile.TemporaryDirectory() as temp_dir: body temp_dir]:
    the directory is made on entry and removed with all it holds on
    every way out of the block, a raised exception included. *)
Definition with_TemporaryDirectory {A} (body : Path → M A) : M A :=
  λ w,
    let temp_dir := mkdtemp E (fs w) in
    let w1 := mkWorld (<[temp_dir := Dir]> (fs w)) (log w ++ [EMkdtemp temp_dir]) in
    let '(w2, r) := body temp_dir w1 in
    (mkWorld (os.rmtree temp_dir (fs w2)) (log w2 ++ [ERmtree temp_dir]), r).

(** [zipfile.ZipFile(p, 'r')] *)
Definition ZipFile (p : Path) : M zip_archive :=
  let* nd := read_fs (λ fs0, os.node_at fs0 p) in
  match nd with
  | None => raise FileNotFoundError
  | Some Dir => raise IsADirectoryError
  | Some (File data) =>
      match parse_zip E data with
      | Some z => ret z
      | None => raise BadZipFile
      end
  end.

(** [zip_ref.read(name)] *)
Definition zip_read (z : zip_archive) (nm : string) : M (list byte) :=
  match zipfile.read z nm with
  | Ret data => ret data
  | Raise e => raise e
  end.

(** [with open(dest_path, 'wb') as f: f.write(image_data)] *)
Definition write_file (p : Path) (data : list byte) : M unit :=
  on_fs (os.write_bytes p data) ;;
  emit (EWrite p data).

(** [p.mkdir(parents=True, exist_ok=True)] *)
Definition mkdir_parents_exist_ok (p : Path) : M unit :=
  on_fs (os.Path_mkdir true true p) ;;
  emit (EMkdir p).

(** [sorted(names)]: ascending in the order of [str], which compares
    code unit by code unit and puts a proper prefix first. *)
Definition sorted (names : list string) : list string :=
  merge_sort String.le names.

(** [f.lower().endswith(('.jpg', '.jpeg', '.png', '.gif'))] *)
Definition is_image (f : string) : bool :=
  Str.endswith_any (Str.lower f) [".jpg"; ".jpeg"; ".png"; ".gif"].

(** [f"{i:04d}{extension}"] with [extension = Path(name).suffix] *)
Definition dest_filename (i : nat) (image_file_in_zip : string) : string :=
  Str.format_04d i +:+ pathlib.suffix (pathlib.parse image_file_in_zip).

(** *** [repack_with_kcc] *)

Definition kcc_command (kcc_path image_folder_path : Path) : list string :=
  [ pathlib.to_str kcc_path;
    "-p"; KCC_DEVICE_PROFILE C;
    "-m";
    "--manga-style";
    "-t"; pathlib.name image_folder_path;
    "-o"; pathlib.to_str (pathlib.parent image_folder_path);
    pathlib.to_str image_folder_path ].

Definition repack_with_kcc (image_folder_path : Path) : M unit :=
  print MsgKccStage ;;
  let kcc_path := script_dir E /: KCC_EXE_FILENAME C in
  let* found := read_fs (λ fs0, os.is_file fs0 kcc_path) in
  if negb found then
    print (MsgKccNotFound (KCC_EXE_FILENAME C)) ;;
    print MsgKccHint ;;
    ret tt
  else
    let output_mobi_path := pathlib.parent image_folder_path in
    let book_title := pathlib.name image_folder_path in
    print (MsgKccDetected kcc_path) ;;
    print (MsgKccFolder (pathlib.name image_folder_path)) ;;
    print (MsgKccProfile (KCC_DEVICE_PROFILE C)) ;;
    try_except2
      (let command := kcc_command kcc_path image_folder_path in
       subprocess_run command true ;;
       let final_file_name := book_title +:+ ".mobi" in
       let final_file_path := output_mobi_path /: final_file_name in
       let* present := read_fs (λ fs0, os.exists_ fs0 final_file_path) in
       if present
       then print (MsgKccSuccess (pathlib.name final_file_path))
       else print (MsgKccOutputMissing final_file_name))
      is_CalledProcessError
      (λ e,
         print MsgKccFailed ;;
         match e with
         | CalledProcessError rc out err =>
             print (MsgKccReturnCode rc) ;;
             print (MsgKccOutput out err)
         | _ => ret tt
         end)
      is_Exception
      (λ e, print (MsgKccUnknown e)).

(** *** [unpack_comic_with_calibre] *)

(** The body of the [with zipfile.ZipFile(...)] block. *)
Definition extract_images (temp_zip_path output_dir : Path) : M (option Path) :=
  let* zip_ref := ZipFile temp_zip_path in
  let image_files := List.filter is_image (zipfile.namelist zip_ref) in
  match image_files with
  | [] =>
      print MsgNoImages ;;
      ret None
  | _ =>
      for_enumerate 1 (sorted image_files)
        (λ i image_file_in_zip,
           let* image_data := zip_read zip_ref image_file_in_zip in
           let dest_path := output_dir /: dest_filename i image_file_in_zip in
           write_file dest_path image_data) ;;
      print (MsgExtracted (length image_files)) ;;
      ret (Some output_dir)
  end.

Definition convert_command (mobi_path temp_zip_path : Path) : list string :=
  ["ebook-convert"; pathlib.to_str mobi_path; pathlib.to_str temp_zip_path].

(** The body of the [with tempfile.TemporaryDirectory()] block. *)
Definition convert_and_extract (mobi_path output_dir temp_dir : Path)
    : M (option Path) :=
  let temp_zip_path := temp_dir /: "converted.zip" in
  print MsgCallingCalibre ;;
  let* converted :=
    try_except
      (subprocess_run (convert_command mobi_path temp_zip_path) false ;;
       print MsgConvertOk ;;
       ret true)
      is_Exception
      (λ e, print (MsgConvertFailed e) ;; ret false) in
  if negb converted then ret None
  else
    print MsgExtracting ;;
    try_except
      (extract_images temp_zip_path output_dir)
      is_BadZipFile
      (λ _, print MsgBadZip ;; ret None).

Definition output_dir_of (mobi_path : Path) : Path :=
  pathlib.parent mobi_path /: pathlib.stem mobi_path.

Definition unpack_comic_with_calibre (mobi_path : Path) : M (option Path) :=
  let* tool := read_fs (which E "ebook-convert") in
  match tool with
  | None =>
      print MsgNoEbookConvert ;;
      print MsgInstallCalibre ;;
      ret None
  | Some _ =>
      let output_dir := output_dir_of mobi_path in
      let* made :=
        try_except
          (mkdir_parents_exist_ok output_dir ;;
           print (MsgOutputDir output_dir) ;;
           ret true)
          is_OSError
          (λ _, ret false) in
      if negb made then ret None
      else with_TemporaryDirectory (convert_and_extract mobi_path output_dir)
  end.

(** *** The main block *)

(** One turn of the loop over [sys.argv[1:]]. *)
Definition process_file (total i : nat) (file_path_str : string) : M unit :=
  let mobi_file_path := pathlib.parse file_path_str in
  print (MsgProgress i total) ;;
  print (MsgFile (pathlib.name mobi_file_path)) ;;
  let* unpacked_folder := unpack_comic_with_calibre mobi_file_path in
  match unpacked_folder with
  | Some folder =>
      if REPACK_AFTER_UNPACK C then repack_with_kcc folder else ret tt
  | None => ret tt
  end ;;
  print (MsgDashes (21 + Str.len (Str.of_nat i) + Str.len (Str.of_nat total))) ;;
  print MsgBlank.

Definition main_loop (total start : nat) (files : list string) : M unit :=
  for_enumerate start files (process_file total).

Definition main (files_to_process : list string) : M unit :=
  match files_to_process with
  | [] =>
      print MsgRule ;; print MsgBanner ;; print MsgRule ;;
      print MsgDepends ;; print MsgDependsCalibre ;; print MsgDependsKcc ;;
      print MsgUsage ;; print MsgUsageDrag ;; print MsgRule
  | _ =>
      print (MsgDetected (length files_to_process)) ;;
      main_loop (length files_to_process) 1 files_to_process ;;
      print MsgAllDone
  end ;;
  print MsgPressEnter ;;
  emit EInput.

End Script.

(** ** A concrete scene, used to run the script *)

Module Demo.

(** An archive as [ebook-convert] may leave it: two pictures and a
    table of contents. *)
Definition archive : zip_archive :=
  [ ("images/p10.jpg", Ret [x01]);
    ("toc.ncx", Ret [x02]);
    ("images/P02.PNG", Ret [x03]) ].

Definition zip_magic : list byte := [x50; x4b].

Definition temp_dir : Path := mkPath "/" ["tmp"; "tmpk3x9"].

(** The conversion tool writes its third argument; on [bad.mobi] it
    writes something that is no zip file, on [text.mobi] an archive
    without pictures, on [dot.mobi] an archive whose only picture is
    named [.jpg], and it fails on [broken.mobi]. *)
Definition tool (command : list string) (shell : bool) (fs0 : FS) : FS * option exn :=
  match command with
  | [_; src; dst] =>
      if String.eqb src "/home/broken.mobi"
      then (fs0, Some (CalledProcessError 1 "" "cannot read"))
      else if String.eqb src "/home/bad.mobi"
      then (<[pathlib.parse dst := File [x00]]> fs0, None)
      else if String.eqb src "/home/text.mobi"
      then (<[pathlib.parse dst := File [x50; x4b; x00]]> fs0, None)
      else if String.eqb src "/home/dot.mobi"
      then (<[pathlib.parse dst := File [x50; x4b; x01]]> fs0, None)
      else (<[pathlib.parse dst := File zip_magic]> fs0, None)
  | _ => (fs0, None)
  end.

Definition unzip (data : list byte) : option zip_archive :=
  if decide (data = zip_magic) then Some archive
  else if decide (data = [x50; x4b; x00]) then Some [("toc.ncx", Ret [x02])]
  else if decide (data = [x50; x4b; x01]) then Some [("images/.jpg", Ret [x07])]
  else None.

Definition env : Env :=
  {| which := λ _ _, Some "/usr/bin/ebook-convert";
     run := tool;
     parse_zip := unzip;
     mkdtemp := λ _, temp_dir;
     script_dir := mkPath "/" ["opt"; "mzy"] |}.

(** The same surroundings without Calibre on the search path. *)
Definition env_without_calibre : Env :=
  {| which := λ _ _, None;
     run := tool;
     parse_zip := unzip;
     mkdtemp := λ _, temp_dir;
     script_dir := mkPath "/" ["opt"; "mzy"] |}.

Definition home : Path := mkPath "/" ["home"].

(** A disk with the input files; [/home/book/] already holds an old
    page and a note, [/home/dir/] holds a directory named like the first
    page, and [/home/comic] is an input file without extension. *)
Definition disk : FS :=
  list_to_map
    [ (home, Dir);
      (home /: "book.mobi", File [x42]);
      (home /: "bad.mobi", File [x42]);
      (home /: "text.mobi", File [x42]);
      (home /: "dot.mobi", File [x42]);
      (home /: "broken.mobi", File [x42]);
      (home /: "dir.mobi", File [x42]);
      (home /: "comic", File [x42]);
      (home /: "book", Dir);
      (home /: "book" /: "0001.jpg", File [xff]);
      (home /: "book" /: "notes.txt", File [x6e]);
      (home /: "dir", Dir);
      (home /: "dir" /: "0001.PNG", Dir) ].

(** The same disk with KCC beside the script. *)
Definition disk_with_kcc : FS :=
  <[mkPath "/" ["opt"; "mzy"; "kcc-c2e.exe"] := File [x4d; x5a]]> disk.

Definition world : World := mkWorld disk [].
Definition world_with_kcc : World := mkWorld disk_with_kcc [].

End Demo.

(** ** Reading the log *)

(** The external programs started, in order. *)
Definition runs (l : list event) : list (list string * bool) :=
  omap (λ ev, match ev with ERun c s => Some (c, s) | _ => None end) l.

(** The files written, in order. *)
Definition writes (l : list event) : list (Path * list byte) :=
  omap (λ ev, match ev with EWrite p d => Some (p, d) | _ => None end) l.

(** The lines printed, in order. *)
Definition printed (l : list event) : list msg :=
  omap (λ ev, match ev with EPrint m => Some m | _ => None end) l.

(** ** Notions of the specification *)

(** [f] ends in [ext] up to the case of letters. *)
Definition ends_with_ci (f ext : string) : Prop :=
  ∃ pre e, f = pre +:+ e ∧ Str.lower e = ext.

(** The recognised picture extensions. *)
Definition image_extensions : list string := [".jpg"; ".jpeg"; ".png"; ".gif"].

(** [f] names a picture. *)
Definition image_name (f : string) : Prop :=
  ∃ ext, ext ∈ image_extensions ∧ ends_with_ci f ext.

(** The temporary directory is new: it has components and nothing on the
    disk is it or lies below it. *)
Definition fresh_dir (t : Path) (fs0 : FS) : Prop :=
  tail t ≠ [] ∧ map_Forall (λ q _, ¬ pathlib.under t q) fs0.

#[global] Instance fresh_dir_dec t fs0 : Decision (fresh_dir t fs0).
Proof. unfold fresh_dir. apply _. Defined.

(** [d] holds no directory (at any depth). *)
Definition no_subdirs (d : Path) (fs0 : FS) : Prop :=
  map_Forall (λ q nd, nd = Dir → pathlib.under d q → q = d) fs0.

#[global] Instance no_subdirs_dec d fs0 : Decision (no_subdirs d fs0).
Proof. unfold no_subdirs. apply _. Defined.

(** ** Notions used in the statements *)

(** *** The turns of the main loop *)

(** The world after the two header lines of a turn. *)
Definition after_header (total i : nat) (file_path_str : string) (w : World) : World :=
  mkWorld (fs w)
    (log w ++ [EPrint (MsgProgress i total);
               EPrint (MsgFile (pathlib.name (pathlib.parse file_path_str)))]).

(** The world after the two footer lines of a turn. *)
Definition after_footer (total i : nat) (w : World) : World :=
  mkWorld (fs w)
    (log w ++ [EPrint (MsgDashes (21 + Str.len (Str.of_nat i) + Str.len (Str.of_nat total)));
               EPrint MsgBlank]).

(** The input files whose turn has begun, by the header line of the
    turn. *)
Definition files_started (l : list event) : list string :=
  omap (λ ev, match ev with EPrint (MsgFile n) => Some n | _ => None end) l.

(** *** Decimal numbers and characters *)

(** The value of a decimal digit and of a string of digits. *)
Definition digit_value (c : ascii) : nat := nat_of_ascii c - 48.

Definition decimal_value (l : list ascii) : nat :=
  foldl (λ acc c, 10 * acc + digit_value c) 0 l.

Definition is_digit (c : ascii) : bool :=
  (48 <=? nat_of_ascii c)%nat && (nat_of_ascii c <=? 57)%nat.

(** The longest run of digits at the front. *)
Fixpoint leading_digits (l : list ascii) : list ascii :=
  match l with
  | c :: l' => if is_digit c then c :: leading_digits l' else []
  | [] => []
  end.

Definition slash : ascii := "/"%char.
Definition dot : ascii := "."%char.

(** *** The stages of the unpack step *)

(** The world in which the temporary directory is entered. *)
Definition after_mkdir (out : Path) (fs1 : FS) (w : World) : World :=
  mkWorld fs1 (log w ++ [EMkdir out; EPrint (MsgOutputDir out)]).

Section Stages.

Context (E : Env) (p : Path) (w : World).

(** The disk and the outcome of [output_dir.mkdir(...)]. *)
Definition disk_after_mkdir : FS :=
  fst (os.Path_mkdir true true (output_dir_of p) (fs w)).
Definition mkdir_outcome : py_result unit :=
  snd (os.Path_mkdir true true (output_dir_of p) (fs w)).

(** The temporary directory and the archive asked from the tool. *)
Definition temp_dir_of : Path := mkdtemp E disk_after_mkdir.
Definition temp_zip_of : Path := temp_dir_of /: "converted.zip".

(** The disk the tool leaves and the exception of the call, if any. *)
Definition disk_after_convert : FS :=
  fst (run E (convert_command p temp_zip_of) false
         (<[temp_dir_of := Dir]> disk_after_mkdir)).
Definition convert_outcome : option exn :=
  snd (run E (convert_command p temp_zip_of) false
         (<[temp_dir_of := Dir]> disk_after_mkdir)).

(** The log up to the call of the tool. *)
Definition log_at_convert : list event :=
  log w ++ [EMkdir (output_dir_of p); EPrint (MsgOutputDir (output_dir_of p));
            EMkdtemp temp_dir_of; EPrint MsgCallingCalibre;
            ERun (convert_command p temp_zip_of) false].

(** The world in which the archive is opened. *)
Definition world_at_extract : World :=
  mkWorld disk_after_convert
    (log_at_convert ++ [EPrint MsgConvertOk; EPrint MsgExtracting]).

End Stages.


(** *** The extraction *)

(** What the extraction may add to the log: lines, and files written to
    destination names in [out]. *)
Definition dest_event (out : Path) (ev : event) : Prop :=
  match ev with
  | EPrint _ => True
  | EWrite q _ => ∃ i n, q = out /: dest_filename i n
  | _ => False
  end.

(** [w'] comes from [w] by printing and by writing destination files:
    whatever was not written is as before, and no directory is lost. *)
Definition extraction_step (out : Path) (w w' : World) : Prop :=
  ∃ l, log w' = log w ++ l
       ∧ Forall (dest_event out) l
       ∧ (∀ q, (∀ d, EWrite q d ∉ l) → fs w' !! q = fs w !! q)
       ∧ (∀ q, fs w !! q = Some Dir → fs w' !! q = Some Dir).

(** The bytes of an entry that can be read. *)
Definition entry_data (z : zip_archive) (nm : string) : list byte :=
  match zipfile.read z nm with
  | Ret data => data
  | Raise _ => []
  end.

(** Two directories lie apart: neither is the other or below it. *)
Definition apart (t d : Path) : Prop :=
  ¬ pathlib.under t d ∧ ¬ pathlib.under d t.

#[global] Instance apart_dec t d : Decision (apart t d).
Proof. unfold apart. apply _. Defined.

(** *** The suffix of a picture name *)

(** The extension is all there is of the last component: nothing
    stands before it, or a slash does. *)
Definition bare_extension (pre : string) : bool :=
  match last (Str.chars pre) with
  | None => true
  | Some c => Ascii.eqb c slash
  end.

(** The characters since the last slash, latest first. *)
Fixpoint last_seg (cur l : list ascii) : list ascii :=
  match l with
  | [] => cur
  | c :: l' => if Ascii.eqb c slash then last_seg [] l' else last_seg (c :: cur) l'
  end.

(** ** Proof automation *)

Ltac unfold_py :=
  unfold bind, ret, raise, print, emit, read_fs, on_fs, try_except, try_except2.

Ltac run_py := unfold_py; simpl; rewrite <- ?app_assoc; simpl.

(** * Facts *)

(** ** The model runs *)

Example format_04d_7 : Str.format_04d 7 = "0007".
Proof. reflexivity. Qed.

Example format_04d_123 : Str.format_04d 123 = "0123".
Proof. reflexivity. Qed.

Example endswith_upper : Str.endswith (Str.lower "a/B.JPG") ".jpg" = true.
Proof. vm_compute. reflexivity. Qed.

Example split_slash_ex : Str.split_slash "/a//b/./c" = [""; "a"; ""; "b"; "."; "c"].
Proof. vm_compute. reflexivity. Qed.

Example parse_absolute :
  pathlib.parse "/home//u/./book.mobi" = mkPath "/" ["home"; "u"; "book.mobi"].
Proof. vm_compute. reflexivity. Qed.

Example suffix_keeps_case : pathlib.suffix (pathlib.parse "images/p01.JPG") = ".JPG".
Proof. vm_compute. reflexivity. Qed.

Example suffix_of_dot_name : pathlib.suffix (pathlib.parse "images/.jpg") = "".
Proof. vm_compute. reflexivity. Qed.

Example stem_two_dots : pathlib.stem (pathlib.parse "/home/u/book.v1.mobi") = "book.v1".
Proof. vm_compute. reflexivity. Qed.

Example stem_without_extension : pathlib.stem (pathlib.parse "comic") = "comic".
Proof. vm_compute. reflexivity. Qed.

Example to_str_joined : pathlib.to_str (pathlib.parse "/a/b" /: "c.zip") = "/a/b/c.zip".
Proof. vm_compute. reflexivity. Qed.

Example unpack_book :
  let r := unpack_comic_with_calibre Demo.env (pathlib.parse "/home/book.mobi") Demo.world in
  snd r = Ret (Some (mkPath "/" ["home"; "book"]))
  ∧ writes (log (fst r)) =
      [ (mkPath "/" ["home"; "book"; "0001.PNG"], [x03]);
        (mkPath "/" ["home"; "book"; "0002.jpg"], [x01]) ].
Proof. vm_compute. done. Qed.

(** ** Strings *)

Section StrFacts.

Import Str.

Lemma text_chars s : text (chars s) = s.
Proof. apply string_of_list_ascii_of_string. Qed.

Lemma chars_text l : chars (text l) = l.
Proof. apply list_ascii_of_string_of_list_ascii. Qed.

Lemma chars_inj s1 s2 : chars s1 = chars s2 → s1 = s2.
Proof. intros H. rewrite <- (text_chars s1), <- (text_chars s2). by rewrite H. Qed.

Lemma chars_app s1 s2 : chars (s1 +:+ s2) = chars s1 ++ chars s2.
Proof.
  induction s1 as [|a s1 IH]; [done|].
  change (chars (String a (s1 +:+ s2)) = a :: chars s1 ++ chars s2).
  by rewrite <- IH.
Qed.

Lemma text_app l1 l2 : text (l1 ++ l2) = text l1 +:+ text l2.
Proof. apply chars_inj. by rewrite chars_app, !chars_text. Qed.

End StrFacts.

(** ** Running the monad *)

Lemma runs_app l1 l2 : runs (l1 ++ l2) = runs l1 ++ runs l2.
Proof. apply omap_app. Qed.

Lemma writes_app l1 l2 : writes (l1 ++ l2) = writes l1 ++ writes l2.
Proof. apply omap_app. Qed.

Lemma printed_app l1 l2 : printed (l1 ++ l2) = printed l1 ++ printed l2.
Proof. apply omap_app. Qed.

(** ** The repack step *)

Section Repack.

Context (E : Env) (C : Config).

Local Abbreviation kcc_path := (script_dir E /: KCC_EXE_FILENAME C).

Lemma repack_kcc_missing folder w :
  os.is_file (fs w) kcc_path = false →
  repack_with_kcc E C folder w =
    (mkWorld (fs w)
       (log w ++ [EPrint MsgKccStage;
                  EPrint (MsgKccNotFound (KCC_EXE_FILENAME C));
                  EPrint MsgKccHint]),
     Ret tt).
Proof.
  intros Hk. unfold repack_with_kcc. run_py. rewrite Hk. run_py. done.
Qed.

(** What the step does once KCC is found, by the outcome of KCC. *)
Lemma repack_kcc_present folder w :
  os.is_file (fs w) kcc_path = true →
  let command := kcc_command C kcc_path folder in
  let title := pathlib.name folder in
  let before :=
    log w ++ [EPrint MsgKccStage; EPrint (MsgKccDetected kcc_path);
              EPrint (MsgKccFolder title);
              EPrint (MsgKccProfile (KCC_DEVICE_PROFILE C));
              ERun command true] in
  repack_with_kcc E C folder w =
    match run E command true (fs w) with
    | (fs1, None) =>
        (mkWorld fs1
           (before ++
              [EPrint (if os.exists_ fs1 (pathlib.parent folder /: (title +:+ ".mobi"))
                       then MsgKccSuccess
                              (pathlib.name (pathlib.parent folder /: (title +:+ ".mobi")))
                       else MsgKccOutputMissing (title +:+ ".mobi"))]),
         Ret tt)
    | (fs1, Some (CalledProcessError rc out err)) =>
        (mkWorld fs1
           (before ++ [EPrint MsgKccFailed; EPrint (MsgKccReturnCode rc);
                       EPrint (MsgKccOutput out err)]),
         Ret tt)
    | (fs1, Some e) =>
        (mkWorld fs1 (before ++ [EPrint (MsgKccUnknown e)]), Ret tt)
    end.
Proof.
  intros Hk. unfold repack_with_kcc, subprocess_run. run_py. rewrite Hk. run_py.
  destruct (run E _ true (fs w)) as [fs1 [e|]]; simpl.
  - destruct e; simpl; rewrite <- ?app_assoc; done.
  - destruct (os.exists_ fs1 _); simpl; rewrite <- ?app_assoc; done.
Qed.

(** The step never raises. *)
Lemma repack_returns folder w : snd (repack_with_kcc E C folder w) = Ret tt.
Proof.
  destruct (os.is_file (fs w) kcc_path) eqn:Hk.
  - rewrite repack_kcc_present by done.
    destruct (run E _ true (fs w)) as [fs1 [[]|]]; done.
  - by rewrite repack_kcc_missing.
Qed.

End Repack.

(** ** One turn of the main loop *)

Section Turn.

Context (E : Env) (C : Config).

(** A turn is the unpack step between header and footer, followed by the
    repack step when there is a folder and repacking is enabled; it
    raises exactly when the unpack step does. *)
Lemma process_file_unfold total i f w :
  process_file E C total i f w =
    match unpack_comic_with_calibre E (pathlib.parse f) (after_header total i f w) with
    | (w1, Ret (Some folder)) =>
        if REPACK_AFTER_UNPACK C
        then (after_footer total i (fst (repack_with_kcc E C folder w1)), Ret tt)
        else (after_footer total i w1, Ret tt)
    | (w1, Ret None) => (after_footer total i w1, Ret tt)
    | (w1, Raise e) => (w1, Raise e)
    end.
Proof.
  unfold process_file, after_header, after_footer. run_py.
  destruct (unpack_comic_with_calibre E _ _) as [w1 [[folder|]|e]]; simpl.
  - destruct (REPACK_AFTER_UNPACK C); simpl.
    + pose proof (repack_returns E C folder w1) as Hr.
      destruct (repack_with_kcc E C folder w1) as [w2 r]; simpl in *. subst r.
      simpl. by rewrite <- app_assoc.
    + by rewrite <- app_assoc.
  - by rewrite <- app_assoc.
  - done.
Qed.

(** The loop goes on to the next file whenever a turn does not raise. *)
Lemma main_loop_cons total i f rest w :
  main_loop E C total i (f :: rest) w =
    match process_file E C total i f w with
    | (w1, Ret _) => main_loop E C total (S i) rest w1
    | (w1, Raise e) => (w1, Raise e)
    end.
Proof. reflexivity. Qed.

End Turn.

(** ** Claims about the repack step *)



(** C8. When the KCC executable is not a file beside the script, the
    repack step prints the error and returns: no program is started and
    the disk is left as the unpack step made it; the turn of the main loop
    then ends normally, so the run continues. *)
Theorem repack_without_kcc_is_local
    (E : Env) (C : Config) (folder : Path) (w : World) :
  os.is_file (fs w) (script_dir E /: KCC_EXE_FILENAME C) = false →
  repack_with_kcc E C folder w =
    (mkWorld (fs w)
       (log w ++ [EPrint MsgKccStage;
                  EPrint (MsgKccNotFound (KCC_EXE_FILENAME C));
                  EPrint MsgKccHint]),
     Ret tt)
  ∧ runs (log (fst (repack_with_kcc E C folder w))) = runs (log w)
  ∧ ∀ total i f w0 rest,
      unpack_comic_with_calibre E (pathlib.parse f) (after_header total i f w0)
        = (w, Ret (Some folder)) →
      REPACK_AFTER_UNPACK C = true →
      ∃ w', fs w' = fs w
            ∧ process_file E C total i f w0 = (w', Ret tt)
            ∧ main_loop E C total i (f :: rest) w0 = main_loop E C total (S i) rest w'.
Proof.
  intros Hk. pose proof (repack_kcc_missing E C folder w Hk) as Heq.
  split; [done|]. split.
  - rewrite Heq. simpl. rewrite runs_app. simpl. by rewrite app_nil_r.
  - intros total i f w0 rest Hu Hr.
    eexists. split; [|split].
    2:{ rewrite process_file_unfold, Hu, Hr, Heq. reflexivity. }
    + done.
    + rewrite main_loop_cons, process_file_unfold, Hu, Hr, Heq. reflexivity.
Qed.

Lemma repack_without_kcc_witness :
  let w := fst (unpack_comic_with_calibre Demo.env (pathlib.parse "/home/book.mobi")
                  (after_header 1 1 "/home/book.mobi" Demo.world)) in
  os.is_file (fs w) (script_dir Demo.env /: KCC_EXE_FILENAME default_config) = false
  ∧ runs (log (fst (repack_with_kcc Demo.env default_config
                      (mkPath "/" ["home"; "book"]) w))) = runs (log w).
Proof.
  split; [vm_compute; reflexivity|].
  apply (repack_without_kcc_is_local Demo.env default_config). vm_compute; reflexivity.
Defined.

(** C9. When the packer ends with status 0 and the file [<title>.mobi] is
    not in the parent of the image folder, the repack step prints the
    warning and returns normally; the disk is the one the packer left. *)
Theorem repack_warns_when_output_is_missing
    (E : Env) (C : Config) (folder : Path) (w : World) :
  let kcc_path := script_dir E /: KCC_EXE_FILENAME C in
  let command :=
    [pathlib.to_str kcc_path; "-p"; KCC_DEVICE_PROFILE C; "-m"; "--manga-style";
     "-t"; pathlib.name folder; "-o"; pathlib.to_str (pathlib.parent folder);
     pathlib.to_str folder] in
  let fs1 := fst (run E command true (fs w)) in
  os.is_file (fs w) kcc_path = true →
  snd (run E command true (fs w)) = None →
  os.exists_ fs1 (pathlib.parent folder /: (pathlib.name folder +:+ ".mobi")) = false →
  repack_with_kcc E C folder w =
    (mkWorld fs1
       (log w ++ [EPrint MsgKccStage; EPrint (MsgKccDetected kcc_path);
                  EPrint (MsgKccFolder (pathlib.name folder));
                  EPrint (MsgKccProfile (KCC_DEVICE_PROFILE C));
                  ERun command true;
                  EPrint (MsgKccOutputMissing (pathlib.name folder +:+ ".mobi"))]),
     Ret tt).
Proof.
  intros kcc_path command fs1 Hk Hrun Hmiss.
  rewrite repack_kcc_present by done.
  change (kcc_command C (script_dir E /: KCC_EXE_FILENAME C) folder) with command.
  subst fs1. destruct (run E command true (fs w)) as [fs1 r]; simpl in *. subst r.
  rewrite Hmiss. by rewrite <- app_assoc.
Qed.

Lemma repack_warns_witness :
  snd (repack_with_kcc Demo.env default_config
         (mkPath "/" ["home"; "scans"]) Demo.world_with_kcc) = Ret tt
  ∧ printed (log (fst (repack_with_kcc Demo.env default_config
                         (mkPath "/" ["home"; "scans"]) Demo.world_with_kcc))) =
      [MsgKccStage; MsgKccDetected (mkPath "/" ["opt"; "mzy"; "kcc-c2e.exe"]);
       MsgKccFolder "scans"; MsgKccProfile "KPW5"; MsgKccOutputMissing "scans.mobi"].
Proof.
  pose proof (repack_warns_when_output_is_missing Demo.env default_config
                (mkPath "/" ["home"; "scans"]) Demo.world_with_kcc) as H.
  cbv zeta in H. rewrite H; [split; reflexivity | | |]; vm_compute; reflexivity.
Defined.

(** ** The file system operations *)

Section FsFacts.

Implicit Types (p q t : Path).

Lemma Path_eta p : mkPath (anchor p) (tail p) = p.
Proof. by destruct p. Qed.

Lemma under_refl t : pathlib.under t t.
Proof. split; done. Qed.

Lemma rmtree_lookup t fs0 q :
  os.rmtree t fs0 !! q = if decide (pathlib.under t q) then None else fs0 !! q.
Proof.
  unfold os.rmtree. case_decide as Hu.
  - apply map_lookup_filter_None. right. intros nd _. simpl. tauto.
  - destruct (fs0 !! q) as [nd|] eqn:Hq.
    + apply map_lookup_filter_Some. done.
    + apply map_lookup_filter_None. by left.
Qed.

Lemma rmtree_lookup_under t fs0 q : pathlib.under t q → os.rmtree t fs0 !! q = None.
Proof. intros. rewrite rmtree_lookup. by case_decide. Qed.

Lemma rmtree_lookup_outside t fs0 q : ¬ pathlib.under t q → os.rmtree t fs0 !! q = fs0 !! q.
Proof. intros. rewrite rmtree_lookup. by case_decide. Qed.

Lemma fresh_dir_lookup t fs0 q : fresh_dir t fs0 → pathlib.under t q → fs0 !! q = None.
Proof.
  intros [_ Hf] Hu. destruct (fs0 !! q) as [nd|] eqn:Hq; [|done].
  by destruct (Hf q nd Hq).
Qed.

Lemma node_at_lookup fs0 p nd : fs0 !! p = Some nd → tail p ≠ [] → os.node_at fs0 p = Some nd.
Proof. unfold os.node_at. destruct (tail p); done. Qed.

(** [os.mkdir] adds one directory and changes nothing else. *)
Lemma os_mkdir_spec p fs0 fs1 r :
  os.mkdir p fs0 = (fs1, r) →
  (r = Ret tt ∧ fs0 !! p = None ∧ fs1 = <[p := Dir]> fs0)
  ∨ (∃ e, r = Raise e ∧ is_OSError e = true ∧ fs1 = fs0).
Proof.
  unfold os.mkdir, os.node_at.
  destruct (tail p) eqn:Ht; [intros [= <- <-]; right; eauto|].
  destruct (fs0 !! p) eqn:Hp; [intros [= <- <-]; right; eauto|].
  destruct (tail (pathlib.parent p)).
  { intros [= <- <-]. by left. }
  destruct (fs0 !! pathlib.parent p) as [[|]|]; intros [= <- <-]; eauto.
Qed.

(** [Path.mkdir] keeps everything that is on the disk, raises [OSError]s
    only, and leaves a directory at [p] when it returns. *)
Lemma Path_mkdir_exists_ok exist_ok p fs0 fs1 r e :
  is_OSError e = true →
  (if negb exist_ok || negb (os.is_dir fs0 p)
   then (fs0, Raise e) else (fs0, Ret tt)) = (fs1, r) →
  (∀ q nd, fs0 !! q = Some nd → fs1 !! q = Some nd)
  ∧ (r = Ret tt → os.is_dir fs1 p = true)
  ∧ (∀ e', r = Raise e' → is_OSError e' = true).
Proof.
  intros He. destruct exist_ok, (os.is_dir fs0 p) eqn:Hd; simpl;
    intros [= <- <-]; split_and!; try done; intros; simplify_eq; done.
Qed.

Lemma Path_mkdir_go_spec fuel parents exist_ok p fs0 fs1 r :
  os.Path_mkdir_go fuel parents exist_ok p fs0 = (fs1, r) →
  (∀ q nd, fs0 !! q = Some nd → fs1 !! q = Some nd)
  ∧ (r = Ret tt → os.is_dir fs1 p = true)
  ∧ (∀ e, r = Raise e → is_OSError e = true).
Proof.
  revert parents exist_ok p fs0 fs1 r.
  induction fuel as [|fuel IH]; intros parents exist_ok p fs0 fs1 r; simpl;
    destruct (os.mkdir p fs0) as [fsa ra] eqn:Hm;
    apply os_mkdir_spec in Hm as [(-> & Hnone & ->)|(e & -> & He & ->)].
  - intros [= <- <-]. split; [|split]; [| |done].
    + intros q nd Hq. rewrite lookup_insert_ne; [done|congruence].
    + intros _. unfold os.is_dir, os.node_at.
      destruct (tail p); [done|]. by rewrite lookup_insert_eq.
  - destruct e; try (by apply Path_mkdir_exists_ok); try done.
    destruct (negb parents || bool_decide (pathlib.parent p = p));
      intros [= <- <-]; split_and!; try done; intros; simplify_eq; done.
  - intros [= <- <-]. split; [|split]; [| |done].
    + intros q nd Hq. rewrite lookup_insert_ne; [done|congruence].
    + intros _. unfold os.is_dir, os.node_at.
      destruct (tail p); [done|]. by rewrite lookup_insert_eq.
  - destruct e; try (by apply Path_mkdir_exists_ok); try done.
    destruct (negb parents || bool_decide (pathlib.parent p = p)).
    { intros [= <- <-]. split_and!; try done. intros; simplify_eq; done. }
    destruct (os.Path_mkdir_go fuel true true (pathlib.parent p) fs0)
      as [fsb [[]|eb]] eqn:Hb.
    + apply IH in Hb as (Hb1 & _ & _). intros Hc.
      apply IH in Hc as (Hc1 & Hc2 & Hc3). split_and!; auto.
    + apply IH in Hb as (Hb1 & _ & Hb3). intros [= <- <-].
      split_and!; auto; intros; simplify_eq; auto.
Qed.

Lemma Path_mkdir_spec parents exist_ok p fs0 fs1 r :
  os.Path_mkdir parents exist_ok p fs0 = (fs1, r) →
  (∀ q nd, fs0 !! q = Some nd → fs1 !! q = Some nd)
  ∧ (r = Ret tt → os.is_dir fs1 p = true)
  ∧ (∀ e, r = Raise e → is_OSError e = true).
Proof. apply Path_mkdir_go_spec. Qed.

(** Writing a file either fails and changes nothing, or puts the file
    at [p], which was no directory. *)
Lemma write_bytes_spec p data fs0 fs1 r :
  os.write_bytes p data fs0 = (fs1, r) →
  (r = Ret tt ∧ os.node_at fs0 p ≠ Some Dir ∧ fs1 = <[p := File data]> fs0)
  ∨ (∃ e, r = Raise e ∧ fs1 = fs0).
Proof.
  unfold os.write_bytes.
  destruct (os.node_at fs0 p) as [[|]|] eqn:Hp;
    try (destruct (os.node_at fs0 (pathlib.parent p)) as [[|]|]);
    intros [= <- <-]; eauto; left; rewrite ?Hp; done.
Qed.

Lemma write_bytes_ok p data fs0 :
  os.is_dir fs0 p = false →
  os.is_dir fs0 (pathlib.parent p) = true →
  os.write_bytes p data fs0 = (<[p := File data]> fs0, Ret tt).
Proof.
  unfold os.write_bytes, os.is_dir. intros Hp Hd.
  destruct (os.node_at fs0 p) as [[|]|]; try done;
    destruct (os.node_at fs0 (pathlib.parent p)) as [[|]|]; done.
Qed.

End FsFacts.

(** ** The unpack step, path by path *)

Section Unpack.

Context (E : Env).

Implicit Types (w : World) (p out t : Path).

(** Calibre is not on the search path. *)
Lemma unpack_no_tool p w :
  which E "ebook-convert" (fs w) = None →
  unpack_comic_with_calibre E p w =
    (mkWorld (fs w) (log w ++ [EPrint MsgNoEbookConvert; EPrint MsgInstallCalibre]),
     Ret None).
Proof.
  intros Hw. unfold unpack_comic_with_calibre. run_py. rewrite Hw. run_py. done.
Qed.

(** The output directory cannot be made: the step returns without a
    word. *)
Lemma unpack_mkdir_fails p w exe fs1 e :
  which E "ebook-convert" (fs w) = Some exe →
  os.Path_mkdir true true (output_dir_of p) (fs w) = (fs1, Raise e) →
  unpack_comic_with_calibre E p w = (mkWorld fs1 (log w), Ret None).
Proof.
  intros Hw Hm. unfold unpack_comic_with_calibre, mkdir_parents_exist_ok.
  run_py. rewrite Hw. simpl. rewrite Hm. simpl.
  apply Path_mkdir_spec in Hm as (_ & _ & He). rewrite (He e eq_refl). done.
Qed.

Lemma unpack_past_mkdir p w exe fs1 :
  which E "ebook-convert" (fs w) = Some exe →
  os.Path_mkdir true true (output_dir_of p) (fs w) = (fs1, Ret tt) →
  unpack_comic_with_calibre E p w =
    with_TemporaryDirectory E (convert_and_extract E p (output_dir_of p))
      (after_mkdir (output_dir_of p) fs1 w).
Proof.
  intros Hw Hm. unfold unpack_comic_with_calibre, mkdir_parents_exist_ok, after_mkdir.
  run_py. rewrite Hw. simpl. rewrite Hm. simpl. by rewrite <- app_assoc.
Qed.

(** The conversion, by the outcome of the tool. *)
Lemma convert_and_extract_unfold p out t w :
  let command := convert_command p (t /: "converted.zip") in
  convert_and_extract E p out t w =
    match run E command false (fs w) with
    | (fs2, Some e) =>
        (mkWorld fs2 (log w ++ [EPrint MsgCallingCalibre; ERun command false;
                                EPrint (MsgConvertFailed e)]),
         Ret None)
    | (fs2, None) =>
        try_except (extract_images E (t /: "converted.zip") out) is_BadZipFile
          (λ _, bind (print MsgBadZip) (λ _, ret None))
          (mkWorld fs2 (log w ++ [EPrint MsgCallingCalibre; ERun command false;
                                  EPrint MsgConvertOk; EPrint MsgExtracting]))
    end.
Proof.
  intros command. unfold convert_and_extract, subprocess_run. fold command.
  unfold_py. simpl.
  destruct (run E command false (fs w)) as [fs2 [e|]]; simpl;
    rewrite <- ?app_assoc; reflexivity.
Qed.

End Unpack.

(** ** Decimal numbers *)

Section Digits.

Import Str.

Lemma digit_char_value d : d < 10 → digit_value (digit_char d) = d.
Proof.
  intros Hd. unfold digit_value, digit_char.
  rewrite nat_ascii_embedding by lia. lia.
Qed.

Lemma digit_char_is_digit d : d < 10 → is_digit (digit_char d) = true.
Proof.
  intros Hd. unfold is_digit, digit_char.
  rewrite nat_ascii_embedding by lia.
  apply andb_true_intro. split; apply Nat.leb_le; lia.
Qed.

Lemma decimal_value_app l1 l2 :
  decimal_value (l1 ++ l2) =
  foldl (λ acc c, 10 * acc + digit_value c) (decimal_value l1) l2.
Proof. unfold decimal_value. by rewrite foldl_app. Qed.

Lemma digits_go_S fuel n acc :
  digits_go (S fuel) n acc =
    if (n / 10 =? 0)%nat then digit_char (n mod 10) :: acc
    else digits_go fuel (n / 10) (digit_char (n mod 10) :: acc).
Proof. reflexivity. Qed.

(** The accumulator of [digits_go] only ever grows at the front. *)
Lemma digits_go_acc fuel n acc :
  digits_go fuel n acc = digits_go fuel n [] ++ acc.
Proof.
  revert n acc. induction fuel as [|fuel IH]; intros n acc; [done|].
  rewrite !digits_go_S. destruct (n / 10 =? 0)%nat; [done|].
  rewrite (IH _ (_ :: acc)), (IH _ [_]). by rewrite <- app_assoc.
Qed.

(** Fuel beyond the number itself is never used. *)
Lemma digits_go_fuel f1 f2 n acc :
  n < f1 → n < f2 → digits_go f1 n acc = digits_go f2 n acc.
Proof.
  revert f2 n acc. induction f1 as [|f1 IH]; intros f2 n acc H1 H2; [lia|].
  destruct f2 as [|f2]; [lia|]. rewrite !digits_go_S.
  destruct (n / 10 =? 0)%nat eqn:Hz; [done|]. apply Nat.eqb_neq in Hz.
  assert (n / 10 < n).
  { apply Nat.div_lt; [|lia]. destruct n; [done|lia]. }
  apply IH; lia.
Qed.

(** [digits] follows the usual recursion on the number. *)
Lemma digits_step n :
  digits n =
    if (n <? 10)%nat then [digit_char n]
    else digits (n / 10) ++ [digit_char (n mod 10)].
Proof.
  unfold digits. rewrite digits_go_S.
  destruct (n <? 10)%nat eqn:Hlt.
  - apply Nat.ltb_lt in Hlt. by rewrite Nat.div_small, Nat.mod_small.
  - apply Nat.ltb_ge in Hlt.
    assert (n / 10 ≠ 0) as Hq by (intros Hq; apply Nat.div_small_iff in Hq; lia).
    apply Nat.eqb_neq in Hq. rewrite Hq, digits_go_acc. f_equal.
    assert (n / 10 < n) by (apply Nat.div_lt; lia).
    apply digits_go_fuel; lia.
Qed.

Lemma digits_all_digits n : Forall (λ c, is_digit c = true) (digits n).
Proof.
  induction (lt_wf n) as [n _ IH]. rewrite digits_step.
  destruct (n <? 10)%nat eqn:Hlt.
  - apply Nat.ltb_lt in Hlt. constructor; [by apply digit_char_is_digit|done].
  - apply Nat.ltb_ge in Hlt. apply Forall_app. split.
    + apply IH. apply Nat.div_lt; lia.
    + constructor; [|done]. apply digit_char_is_digit.
      apply Nat.mod_upper_bound. lia.
Qed.

Lemma digits_nonempty n : digits n ≠ [].
Proof.
  rewrite digits_step. destruct (n <? 10)%nat; [done|].
  intros H. by apply app_nil in H as [_ ?].
Qed.

(** Reading the digits back gives the number. *)
Lemma decimal_value_digits n : decimal_value (digits n) = n.
Proof.
  induction (lt_wf n) as [n _ IH]. rewrite digits_step.
  destruct (n <? 10)%nat eqn:Hlt.
  - apply Nat.ltb_lt in Hlt. unfold decimal_value. simpl.
    rewrite digit_char_value by done. lia.
  - apply Nat.ltb_ge in Hlt. rewrite decimal_value_app. cbn [foldl].
    rewrite IH by (apply Nat.div_lt; lia).
    rewrite digit_char_value by (apply Nat.mod_upper_bound; lia).
    symmetry. apply Nat.div_mod_eq.
Qed.

(** A number below [10 ^ k] has at most [k] digits. *)
Lemma digits_length_bound k n : 0 < k → n < 10 ^ k → length (digits n) ≤ k.
Proof.
  revert n. induction k as [|k IH]; intros n Hk Hn; [lia|].
  rewrite digits_step. destruct (n <? 10)%nat eqn:Hlt; [cbn [length]; lia|].
  apply Nat.ltb_ge in Hlt. rewrite length_app. cbn [length].
  destruct k as [|k]; [change (10 ^ 1) with 10 in Hn; lia|].
  assert (length (digits (n / 10)) ≤ S k); [|lia].
  apply IH; [lia|]. apply Nat.Div0.div_lt_upper_bound.
  by rewrite <- Nat.pow_succ_r'.
Qed.

Lemma decimal_value_zeros k l :
  decimal_value (replicate k "0"%char ++ l) = decimal_value l.
Proof.
  rewrite decimal_value_app.
  assert (decimal_value (replicate k "0"%char) = 0) as ->; [|done].
  induction k as [|k IH]; [done|].
  replace (S k) with (k + 1) by lia.
  rewrite replicate_add, decimal_value_app, IH. done.
Qed.

Lemma replicate_zero_digits k : Forall (λ c, is_digit c = true) (replicate k "0"%char).
Proof. apply Forall_replicate. done. Qed.

(** [format_04d]: digits only, at least four of them, exactly four up
    to 9999, and the number can be read back. *)
Lemma format_04d_digits n : Forall (λ c, is_digit c = true) (chars (format_04d n)).
Proof.
  unfold format_04d. rewrite chars_text. apply Forall_app. split.
  - apply replicate_zero_digits.
  - apply digits_all_digits.
Qed.

Lemma format_04d_length_ge n : 4 ≤ len (format_04d n).
Proof.
  unfold len, format_04d. rewrite chars_text, length_app, length_replicate. lia.
Qed.

Lemma format_04d_length_4 n : n < 10000 → len (format_04d n) = 4.
Proof.
  intros Hn. unfold len, format_04d.
  rewrite chars_text, length_app, length_replicate.
  assert (length (digits n) ≤ 4); [|lia].
  apply digits_length_bound; [lia|]. by change (10 ^ 4) with 10000.
Qed.

Lemma format_04d_value n : decimal_value (chars (format_04d n)) = n.
Proof.
  unfold format_04d. rewrite chars_text, decimal_value_zeros.
  apply decimal_value_digits.
Qed.

Lemma format_04d_inj n m : format_04d n = format_04d m → n = m.
Proof.
  intros H. rewrite <- (format_04d_value n), <- (format_04d_value m). by rewrite H.
Qed.

End Digits.

(** ** Path components and destination names *)

Section Names.

Import Str.

Lemma digit_not_slash c : is_digit c = true → c ≠ slash.
Proof. intros H ->. done. Qed.

Lemma digit_not_dot c : is_digit c = true → c ≠ dot.
Proof. intros H ->. done. Qed.

(** Splitting at slashes leaves no slash in the pieces. *)
Lemma split_slash_go_free cur l s :
  slash ∉ cur → s ∈ split_slash_go cur l → slash ∉ chars s.
Proof.
  revert cur. induction l as [|c l IH]; intros cur Hcur; simpl.
  - intros ->%list_elem_of_singleton. rewrite chars_text.
    by rewrite elem_of_reverse.
  - destruct (Ascii.eqb_spec c "/"%char) as [->|Hc].
    + intros [->|Hs]%elem_of_cons.
      * rewrite chars_text. by rewrite elem_of_reverse.
      * apply (IH []); [|done]. by intros ?%elem_of_nil.
    + apply IH. intros [?|?]%elem_of_cons; [by subst|done].
Qed.

(** A string without slash is its own single piece. *)
Lemma split_slash_go_single cur l :
  slash ∉ l → split_slash_go cur l = [text (reverse cur ++ l)].
Proof.
  revert cur. induction l as [|c l IH]; intros cur Hl; simpl.
  - by rewrite app_nil_r.
  - destruct (Ascii.eqb_spec c "/"%char) as [->|Hc].
    + exfalso. apply Hl. by left.
    + rewrite IH by (intros ?; apply Hl; by right).
      by rewrite reverse_cons, <- app_assoc.
Qed.

Lemma split_slash_single s : slash ∉ chars s → split_slash s = [s].
Proof.
  intros H. unfold split_slash. rewrite split_slash_go_single by done.
  simpl. by rewrite text_chars.
Qed.

Lemma last_elem_of {A} (l : list A) d : List.last l d = d ∨ List.last l d ∈ l.
Proof.
  induction l as [|x l IH]; [by left|]. right. simpl.
  destruct l as [|y l]; [by left|]. right.
  destruct IH as [IH|IH]; [|done].
  (* the default is not reached by a non-empty list *)
  clear -l. revert y. induction l as [|z l IHl]; intros y; simpl; [by left|].
  right. apply IHl.
Qed.

Lemma List_filter_elem_of {A} (f : A → bool) l x :
  x ∈ List.filter f l → x ∈ l ∧ f x = true.
Proof. rewrite !list_elem_of_In. apply filter_In. Qed.

(** The name of a parsed path holds no slash. *)
Lemma name_parse_slash_free s : slash ∉ chars (pathlib.name (pathlib.parse s)).
Proof.
  unfold pathlib.parse. destruct (pathlib.splitroot s) as [root rel].
  unfold pathlib.name. simpl.
  destruct (last_elem_of (List.filter pathlib.keep_component (split_slash rel)) "")
    as [->|Hin].
  - by intros ?%elem_of_nil.
  - apply List_filter_elem_of in Hin as [Hin _].
    eapply split_slash_go_free; [|exact Hin]. by intros ?%elem_of_nil.
Qed.

(** [rfind_dot] finds a dot. *)
Lemma rfind_dot_from_spec k l j :
  rfind_dot_from k l = Some j → k ≤ j ∧ l !! (j - k) = Some dot.
Proof.
  revert k. induction l as [|c l IH]; intros k; simpl; [done|].
  destruct (rfind_dot_from (S k) l) as [j'|] eqn:Hr.
  - intros [= ->]. apply IH in Hr as [Hle Hl]. split; [lia|].
    replace (j - k) with (S (j - S k)) by lia. done.
  - destruct (Ascii.eqb_spec c "."%char) as [->|]; [|done].
    intros [= ->]. split; [lia|]. by rewrite Nat.sub_diag.
Qed.

(** The suffix of a path is empty or starts with a dot, and holds
    no slash. *)
Lemma suffix_shape p :
  pathlib.suffix p = "" ∨ ∃ rest, chars (pathlib.suffix p) = dot :: rest.
Proof.
  unfold pathlib.suffix, pathlib.suffix_index.
  destruct (rfind_dot (pathlib.name p)) as [i|] eqn:Hr; [|by left].
  destruct ((0 <? i)%nat && (i <? len (pathlib.name p) - 1)%nat); [|by left].
  right. apply rfind_dot_from_spec in Hr as [_ Hi]. rewrite Nat.sub_0_r in Hi.
  unfold slice_from. rewrite chars_text.
  exists (drop (S i) (chars (pathlib.name p))). by apply drop_S.
Qed.

Lemma suffix_parse_slash_free s : slash ∉ chars (pathlib.suffix (pathlib.parse s)).
Proof.
  unfold pathlib.suffix.
  destruct (pathlib.suffix_index _) as [i|]; [|by intros ?%elem_of_nil].
  unfold slice_from. rewrite chars_text. intros Hin.
  apply (name_parse_slash_free s).
  eapply elem_of_sublist; [exact Hin|]. apply sublist_drop.
Qed.

(** A destination name is a run of digits followed by the suffix. *)
Lemma dest_filename_chars i n :
  chars (dest_filename i n) =
  chars (format_04d i) ++ chars (pathlib.suffix (pathlib.parse n)).
Proof. apply chars_app. Qed.

Lemma dest_filename_slash_free i n : slash ∉ chars (dest_filename i n).
Proof.
  rewrite dest_filename_chars. intros [Hd|Hs]%elem_of_app.
  - pose proof (format_04d_digits i) as Hall.
    rewrite Forall_forall in Hall. by apply (digit_not_slash _ (Hall _ Hd)).
  - by apply (suffix_parse_slash_free n).
Qed.

Lemma dest_filename_head i n :
  ∃ c rest, chars (dest_filename i n) = c :: rest ∧ is_digit c = true.
Proof.
  rewrite dest_filename_chars.
  pose proof (format_04d_digits i) as Hall.
  pose proof (format_04d_length_ge i) as Hlen. unfold len in Hlen.
  destruct (chars (format_04d i)) as [|c l]; [simpl in Hlen; lia|].
  exists c, (l ++ chars (pathlib.suffix (pathlib.parse n))).
  split; [done|]. by inversion Hall.
Qed.

(** The leading digits of a destination name are the sequence number. *)
Lemma leading_digits_app l1 l2 :
  Forall (λ c, is_digit c = true) l1 →
  (l2 = [] ∨ ∃ rest, l2 = dot :: rest) →
  leading_digits (l1 ++ l2) = l1.
Proof.
  intros Hall Hl2. induction Hall as [|c l1 Hc _ IH]; simpl.
  - destruct Hl2 as [->|[rest ->]]; done.
  - rewrite Hc. simpl. by rewrite IH.
Qed.

Lemma dest_filename_inj_index i j n m :
  dest_filename i n = dest_filename j m → i = j.
Proof.
  intros Heq. apply (f_equal chars) in Heq. rewrite !dest_filename_chars in Heq.
  apply (f_equal leading_digits) in Heq.
  rewrite !leading_digits_app in Heq.
  - apply format_04d_inj. by apply chars_inj.
  - apply format_04d_digits.
  - destruct (suffix_shape (pathlib.parse m)) as [->|?]; [by left|by right].
  - apply format_04d_digits.
  - destruct (suffix_shape (pathlib.parse n)) as [->|?]; [by left|by right].
Qed.

End Names.

Section Children.

Import Str.

(** A relative single component is appended as it is. *)
Lemma splitroot_relative s c l :
  chars s = c :: l → c ≠ slash → pathlib.splitroot s = ("", s).
Proof.
  intros Hs Hc. unfold pathlib.splitroot. rewrite Hs.
  destruct c as [[] [] [] [] [] [] [] []]; try reflexivity.
  by destruct Hc.
Qed.

Lemma parse_component s :
  slash ∉ chars s → s ≠ "" → s ≠ "." → pathlib.parse s = mkPath "" [s].
Proof.
  intros Hfree Hne Hnd. unfold pathlib.parse.
  destruct (chars s) as [|c l] eqn:Hs.
  { destruct Hne. apply chars_inj. by rewrite Hs. }
  rewrite (splitroot_relative s c l Hs).
  2:{ intros ->. apply Hfree. by left. }
  rewrite split_slash_single by (by rewrite Hs). simpl.
  unfold pathlib.keep_component.
  destruct (String.eqb_spec s ""); [done|].
  destruct (String.eqb_spec s "."); [done|]. done.
Qed.

Lemma joinpath_component p s :
  slash ∉ chars s → s ≠ "" → s ≠ "." →
  p /: s = mkPath (anchor p) (tail p ++ [s]).
Proof.
  intros Hfree Hne Hnd. unfold pathlib.joinpath.
  rewrite parse_component by done. simpl.
  destruct (chars s) as [|c l] eqn:Hs; [done|].
  assert (c ≠ slash) as Hc.
  { intros ->. apply Hfree. by left. }
  destruct c as [[] [] [] [] [] [] [] []]; try reflexivity.
  by destruct Hc.
Qed.

Lemma dest_filename_component i n :
  (slash ∉ chars (dest_filename i n))
  ∧ dest_filename i n ≠ "" ∧ dest_filename i n ≠ ".".
Proof.
  split; [apply dest_filename_slash_free|].
  destruct (dest_filename_head i n) as (c & rest & Hc & Hd).
  split; intros Heq; rewrite Heq in Hc; simplify_eq/=.
Qed.

(** The destination of a picture is a child of the output directory. *)
Lemma dest_path_child out i n :
  out /: dest_filename i n = mkPath (anchor out) (tail out ++ [dest_filename i n]).
Proof.
  destruct (dest_filename_component i n) as (? & ? & ?).
  by apply joinpath_component.
Qed.

Lemma dest_path_parent out i n : pathlib.parent (out /: dest_filename i n) = out.
Proof.
  rewrite dest_path_child. unfold pathlib.parent. simpl.
  rewrite removelast_last. apply Path_eta.
Qed.

Lemma dest_path_tail out i n : tail (out /: dest_filename i n) ≠ [].
Proof. rewrite dest_path_child. simpl. by intros [? ?]%app_nil. Qed.

Lemma dest_path_under out i n : pathlib.under out (out /: dest_filename i n).
Proof. rewrite dest_path_child. split; [done|]. simpl. by apply prefix_app_r. Qed.

Lemma dest_path_not_out out i n : out /: dest_filename i n ≠ out.
Proof.
  rewrite dest_path_child. intros Heq. apply (f_equal tail) in Heq. simpl in Heq.
  apply (f_equal length) in Heq. rewrite length_app in Heq. simpl in Heq. lia.
Qed.

Lemma dest_path_inj_index out i j n m :
  out /: dest_filename i n = out /: dest_filename j m → i = j.
Proof.
  rewrite !dest_path_child. intros [= Heq].
  apply app_inv_head in Heq. injection Heq as Heq.
  by apply dest_filename_inj_index in Heq.
Qed.

End Children.

(** ** Picture names *)

Section Pictures.

Import Str.

Lemma chars_lower s : chars (lower s) = lower_char <$> chars s.
Proof. unfold lower. apply chars_text. Qed.

Lemma endswith_lower_iff f ext :
  endswith (lower f) ext = true ↔ ends_with_ci f ext.
Proof.
  unfold endswith, ends_with_ci. rewrite bool_decide_eq_true, chars_lower. split.
  - intros [k Hk].
    apply fmap_app_inv in Hk as (pre & e & Hpre & He & Hf).
    exists (text pre), (text e). split.
    + apply chars_inj. by rewrite chars_app, !chars_text.
    + apply chars_inj. by rewrite chars_lower, chars_text.
  - intros (pre & e & -> & <-). exists (lower_char <$> chars pre).
    by rewrite chars_app, fmap_app, chars_lower.
Qed.

(** The test of the script recognises exactly the picture names. *)
Lemma is_image_iff f : is_image f = true ↔ image_name f.
Proof.
  unfold is_image, image_name, endswith_any, image_extensions.
  rewrite existsb_exists. split.
  - intros (ext & Hin & Hend). exists ext. split.
    + by apply list_elem_of_In.
    + by apply endswith_lower_iff.
  - intros (ext & Hin & Hend). exists ext. split.
    + by apply list_elem_of_In.
    + by apply endswith_lower_iff.
Qed.

Lemma is_image_false_iff f : is_image f = false ↔ ¬ image_name f.
Proof. rewrite <- is_image_iff. by destruct (is_image f). Qed.

(** Filtering with the test keeps exactly the picture names. *)
Lemma filter_is_image_nil names :
  List.filter is_image names = [] ↔ ∀ n, n ∈ names → ¬ image_name n.
Proof.
  induction names as [|n names IH]; simpl.
  - split; [|done]. by intros _ n ?%elem_of_nil.
  - destruct (is_image n) eqn:Hn.
    + split; [done|]. intros H. exfalso. apply (H n); [by left|].
      by apply is_image_iff.
    + rewrite IH. split.
      * intros H m [->|Hm]%elem_of_cons; [by apply is_image_false_iff|by apply H].
      * intros H m Hm. apply H. by right.
Qed.

End Pictures.

(** ** The extraction loop *)

Section Extraction.

Context (E : Env) (out : Path).

Lemma extraction_step_refl w : extraction_step out w w.
Proof. exists []. rewrite app_nil_r. split_and!; done. Qed.

Lemma extraction_step_trans w1 w2 w3 :
  extraction_step out w1 w2 → extraction_step out w2 w3 → extraction_step out w1 w3.
Proof.
  intros (l1 & Hl1 & Hd1 & Hf1 & Hk1) (l2 & Hl2 & Hd2 & Hf2 & Hk2).
  exists (l1 ++ l2). split_and!.
  - by rewrite Hl2, Hl1, app_assoc.
  - by apply Forall_app.
  - intros q Hq. rewrite Hf2, Hf1; [done| |].
    + intros d Hd. apply (Hq d), elem_of_app. by left.
    + intros d Hd. apply (Hq d), elem_of_app. by right.
  - auto.
Qed.

Lemma extraction_step_print m w :
  extraction_step out w (mkWorld (fs w) (log w ++ [EPrint m])).
Proof.
  exists [EPrint m]. split_and!; try done. by repeat constructor.
Qed.

(** One picture written, or the attempt abandoned. *)
Lemma write_file_step i n data w w' r :
  write_file (out /: dest_filename i n) data w = (w', r) →
  extraction_step out w w'.
Proof.
  unfold write_file. unfold_py. simpl.
  destruct (os.write_bytes _ data (fs w)) as [fs1 r1] eqn:Hw. simpl.
  apply write_bytes_spec in Hw as [(-> & Hnd & ->)|(e & -> & ->)]; intros [= <- <-].
  - exists [EWrite (out /: dest_filename i n) data]. split_and!; [done| | |].
    + constructor; [|done]. simpl. eauto.
    + intros q Hq. simpl. apply lookup_insert_ne. intros <-.
      apply (Hq data). by left.
    + intros q Hq. simpl. rewrite lookup_insert_ne; [done|]. intros <-.
      apply Hnd. apply node_at_lookup; [done|]. apply dest_path_tail.
  - replace (mkWorld (fs w) (log w)) with w by (by destruct w).
    apply extraction_step_refl.
Qed.

Lemma extract_loop_step z names : ∀ i w w' r,
  for_enumerate i names
    (λ i image_file_in_zip,
       bind (zip_read z image_file_in_zip)
         (λ image_data,
            write_file (out /: dest_filename i image_file_in_zip) image_data))
    w = (w', r) →
  extraction_step out w w'.
Proof.
  induction names as [|n names IH]; intros i w w' r; simpl.
  - intros [= <- <-]. apply extraction_step_refl.
  - unfold bind at 1. unfold bind at 1. unfold zip_read at 1.
    destruct (zipfile.read z n) as [data|e]; simpl.
    + destruct (write_file _ data w) as [w1 [[]|e]] eqn:Hw.
      * intros Hrest. eapply extraction_step_trans.
        -- eapply write_file_step, Hw.
        -- eapply IH, Hrest.
      * intros [= <- <-]. eapply write_file_step, Hw.
    + intros [= <- <-]. apply extraction_step_refl.
Qed.

(** The whole extraction, guarded by the [BadZipFile] handler. *)
Lemma extract_images_step zip w w' r :
  try_except (extract_images E zip out) is_BadZipFile
    (λ _, bind (print MsgBadZip) (λ _, ret None)) w = (w', r) →
  extraction_step out w w'.
Proof.
  unfold try_except, extract_images, ZipFile.
  unfold bind at 1. unfold bind at 1. unfold read_fs at 1.
  destruct (os.node_at (fs w) zip) as [[data|]|]; simpl.
  2,3: unfold_py; simpl; intros [= <- <-]; apply extraction_step_refl.
  destruct (parse_zip E data) as [z|]; simpl.
  2:{ unfold_py. simpl. intros [= <- <-]. apply extraction_step_print. }
  destruct (List.filter is_image (zipfile.namelist z)) as [|n0 names] eqn:Hf.
  { unfold_py. simpl. intros [= <- <-]. apply extraction_step_print. }
  rewrite <- Hf. clear Hf.
  unfold bind at 1.
  destruct (for_enumerate 1 _ _ w) as [w1 [[]|e]] eqn:Hloop.
  - apply extract_loop_step in Hloop. unfold_py. simpl. intros [= <- <-].
    eapply extraction_step_trans; [exact Hloop|]. apply extraction_step_print.
  - apply extract_loop_step in Hloop.
    destruct (is_BadZipFile e).
    + unfold_py. simpl. intros [= <- <-].
      eapply extraction_step_trans; [exact Hloop|]. apply extraction_step_print.
    + intros [= <- <-]. done.
Qed.

End Extraction.

(** ** The stages of the unpack step *)

Section StageFacts.

Context (E : Env) (p : Path) (w : World).

Lemma unpack_convert_failed exe e :
  which E "ebook-convert" (fs w) = Some exe →
  mkdir_outcome p w = Ret tt →
  convert_outcome E p w = Some e →
  unpack_comic_with_calibre E p w =
    (mkWorld (os.rmtree (temp_dir_of E p w) (disk_after_convert E p w))
       (log_at_convert E p w ++ [EPrint (MsgConvertFailed e); ERmtree (temp_dir_of E p w)]),
     Ret None).
Proof.
  unfold mkdir_outcome, convert_outcome, disk_after_convert, log_at_convert,
    temp_zip_of, temp_dir_of, disk_after_mkdir.
  intros Hw Hm Hc.
  destruct (os.Path_mkdir true true (output_dir_of p) (fs w)) as [fs1 r1] eqn:Hmk.
  simpl in *. subst r1.
  rewrite (unpack_past_mkdir E p w exe fs1 Hw Hmk).
  unfold with_TemporaryDirectory, after_mkdir. cbn [fs log].
  rewrite convert_and_extract_unfold. cbn [fs log].
  destruct (run E _ false _) as [fs2 r2]. simpl in *. subst r2.
  cbn [fs log]. rewrite <- !app_assoc. reflexivity.
Qed.

Lemma unpack_converted exe :
  which E "ebook-convert" (fs w) = Some exe →
  mkdir_outcome p w = Ret tt →
  convert_outcome E p w = None →
  unpack_comic_with_calibre E p w =
    (mkWorld
       (os.rmtree (temp_dir_of E p w)
          (fs (fst (try_except (extract_images E (temp_zip_of E p w) (output_dir_of p))
                      is_BadZipFile (λ _, bind (print MsgBadZip) (λ _, ret None))
                      (world_at_extract E p w)))))
       (log (fst (try_except (extract_images E (temp_zip_of E p w) (output_dir_of p))
                    is_BadZipFile (λ _, bind (print MsgBadZip) (λ _, ret None))
                    (world_at_extract E p w)))
        ++ [ERmtree (temp_dir_of E p w)]),
     snd (try_except (extract_images E (temp_zip_of E p w) (output_dir_of p))
            is_BadZipFile (λ _, bind (print MsgBadZip) (λ _, ret None))
            (world_at_extract E p w))).
Proof.
  unfold world_at_extract, mkdir_outcome, convert_outcome, disk_after_convert,
    log_at_convert, temp_zip_of, temp_dir_of, disk_after_mkdir.
  intros Hw Hm Hc.
  destruct (os.Path_mkdir true true (output_dir_of p) (fs w)) as [fs1 r1] eqn:Hmk.
  simpl in *. subst r1.
  rewrite (unpack_past_mkdir E p w exe fs1 Hw Hmk).
  unfold with_TemporaryDirectory, after_mkdir. cbn [fs log].
  rewrite convert_and_extract_unfold. cbn [fs log].
  destruct (run E _ false _) as [fs2 r2]. simpl in *. subst r2.
  rewrite <- !app_assoc. simpl.
  by destruct (try_except _ _ _ _) as [w3 r3].
Qed.

(** Whatever happens after the directory was made, the temporary
    directory and all below it are gone when the step ends. *)
Lemma unpack_removes_temp exe q :
  which E "ebook-convert" (fs w) = Some exe →
  mkdir_outcome p w = Ret tt →
  pathlib.under (temp_dir_of E p w) q →
  fs (fst (unpack_comic_with_calibre E p w)) !! q = None.
Proof.
  intros Hw Hm Hq. destruct (convert_outcome E p w) as [e|] eqn:Hc.
  - rewrite (unpack_convert_failed exe e) by done. simpl.
    by apply rmtree_lookup_under.
  - rewrite (unpack_converted exe) by done. simpl.
    by apply rmtree_lookup_under.
Qed.

(** After the call of the tool the step only prints, writes
    destination files and removes the temporary directory. *)
Lemma unpack_after_convert exe :
  which E "ebook-convert" (fs w) = Some exe →
  mkdir_outcome p w = Ret tt →
  ∃ w3 l,
    extraction_step (output_dir_of p) (mkWorld (disk_after_convert E p w) (log_at_convert E p w)) w3
    ∧ log w3 = log_at_convert E p w ++ l
    ∧ log (fst (unpack_comic_with_calibre E p w)) = log w3 ++ [ERmtree (temp_dir_of E p w)]
    ∧ fs (fst (unpack_comic_with_calibre E p w)) = os.rmtree (temp_dir_of E p w) (fs w3).
Proof.
  intros Hw Hm. destruct (convert_outcome E p w) as [e|] eqn:Hc.
  - rewrite (unpack_convert_failed exe e) by done. simpl.
    exists (mkWorld (disk_after_convert E p w) (log_at_convert E p w ++ [EPrint (MsgConvertFailed e)])),
      [EPrint (MsgConvertFailed e)].
    split_and!; [|done|simpl; by rewrite <- app_assoc|done].
    apply (extraction_step_print _ _ (mkWorld (disk_after_convert E p w) (log_at_convert E p w))).
  - rewrite (unpack_converted exe) by done. simpl.
    destruct (try_except _ _ _ (world_at_extract E p w)) as [w3 r3] eqn:Hx. simpl.
    apply extract_images_step in Hx.
    assert (extraction_step (output_dir_of p)
              (mkWorld (disk_after_convert E p w) (log_at_convert E p w)) w3) as Hstep.
    { eapply extraction_step_trans; [|exact Hx].
      exists [EPrint MsgConvertOk; EPrint MsgExtracting].
      split_and!; try done. by repeat constructor. }
    exists w3. destruct Hstep as (l & Hl & Hrest). exists l.
    split_and!; [by exists l|done|done|done].
Qed.

End StageFacts.

(** ** Claims about the unpack step *)

Lemma converted_zip_name : slash ∉ Str.chars "converted.zip".
Proof.
  apply (bool_decide_unpack (slash ∉ Str.chars "converted.zip")).
  vm_compute. exact I.
Qed.

Lemma converted_zip_under t : pathlib.under t (t /: "converted.zip").
Proof.
  rewrite joinpath_component; [|apply converted_zip_name|done|done].
  split; [done|]. simpl. by apply prefix_app_r.
Qed.

Lemma converted_zip_tail t : tail (t /: "converted.zip") ≠ [].
Proof.
  rewrite joinpath_component; [|apply converted_zip_name|done|done].
  simpl. by intros [? ?]%app_nil.
Qed.


Lemma unpack_no_images (E : Env) (p : Path) (w : World) exe data z :
  which E "ebook-convert" (fs w) = Some exe →
  mkdir_outcome p w = Ret tt →
  convert_outcome E p w = None →
  os.node_at (disk_after_convert E p w) (temp_zip_of E p w) = Some (File data) →
  parse_zip E data = Some z →
  (∀ n, n ∈ zipfile.namelist z → ¬ image_name n) →
  unpack_comic_with_calibre E p w =
    (mkWorld (os.rmtree (temp_dir_of E p w) (disk_after_convert E p w))
       (log_at_convert E p w ++
          [EPrint MsgConvertOk; EPrint MsgExtracting; EPrint MsgNoImages;
           ERmtree (temp_dir_of E p w)]),
     Ret None).
Proof.
  intros Hw Hm Hc Hz Hp Hnone.
  apply filter_is_image_nil in Hnone.
  rewrite (unpack_converted E p w exe) by done.
  unfold try_except, extract_images, ZipFile, world_at_extract. unfold_py.
  cbn [fs log]. rewrite Hz, Hp. cbn [fs log]. rewrite Hnone. cbn [fst snd fs log].
  by rewrite <- !app_assoc.
Qed.

(** C4. Once the temporary directory has been entered (the tool was found
    and the output directory made), the step ends, however it ends, with
    the removal of the temporary directory: on the disk it leaves there is
    nothing at or below that directory, the intermediate archive
    included. *)
Theorem unpack_leaves_no_temporary_files
    (E : Env) (p : Path) (w : World) (exe : string) :
  which E "ebook-convert" (fs w) = Some exe →
  mkdir_outcome p w = Ret tt →
  (∀ q, pathlib.under (temp_dir_of E p w) q →
        fs (fst (unpack_comic_with_calibre E p w)) !! q = None)
  ∧ os.exists_ (fs (fst (unpack_comic_with_calibre E p w))) (temp_zip_of E p w) = false
  ∧ EMkdtemp (temp_dir_of E p w) ∈ log (fst (unpack_comic_with_calibre E p w))
  ∧ last (log (fst (unpack_comic_with_calibre E p w)))
      = Some (ERmtree (temp_dir_of E p w)).
Proof.
  intros Hw Hm.
  assert (∀ q, pathlib.under (temp_dir_of E p w) q →
               fs (fst (unpack_comic_with_calibre E p w)) !! q = None) as Hgone.
  { intros q Hq. by eapply unpack_removes_temp. }
  split; [done|]. split.
  - unfold os.exists_, os.node_at, temp_zip_of.
    pose proof (converted_zip_tail (temp_dir_of E p w)) as Ht.
    destruct (tail (temp_dir_of E p w /: "converted.zip")); [done|].
    rewrite Hgone; [done|]. apply converted_zip_under.
  - destruct (unpack_after_convert E p w exe Hw Hm) as (w3 & l & _ & Hl3 & Hlog & _).
    rewrite Hlog, Hl3. split.
    + unfold log_at_convert. rewrite !elem_of_app. left. left. right.
      rewrite !elem_of_cons. auto.
    + apply last_snoc.
Qed.

(** C5. When the archive the tool produced can be read and none of its
    entries is a picture name, the step prints the warning and returns no
    result; it writes no file, and outside the temporary directory the
    disk is as the tool left it. *)
Theorem unpack_without_pictures
    (E : Env) (p : Path) (w : World) (exe : string)
    (data : list byte) (z : zip_archive) :
  which E "ebook-convert" (fs w) = Some exe →
  mkdir_outcome p w = Ret tt →
  convert_outcome E p w = None →
  os.node_at (disk_after_convert E p w) (temp_zip_of E p w) = Some (File data) →
  parse_zip E data = Some z →
  (∀ n, n ∈ zipfile.namelist z → ¬ image_name n) →
  unpack_comic_with_calibre E p w =
    (mkWorld (os.rmtree (temp_dir_of E p w) (disk_after_convert E p w))
       (log_at_convert E p w ++
          [EPrint MsgConvertOk; EPrint MsgExtracting; EPrint MsgNoImages;
           ERmtree (temp_dir_of E p w)]),
     Ret None)
  ∧ writes (log (fst (unpack_comic_with_calibre E p w))) = writes (log w)
  ∧ ∀ q, ¬ pathlib.under (temp_dir_of E p w) q →
         fs (fst (unpack_comic_with_calibre E p w)) !! q = disk_after_convert E p w !! q.
Proof.
  intros Hw Hm Hc Hz Hp Hnone.
  pose proof (unpack_no_images E p w exe data z Hw Hm Hc Hz Hp Hnone) as Heq.
  split; [done|]. rewrite Heq. cbn [fst fs log]. split.
  - unfold log_at_convert. rewrite !writes_app. simpl. by rewrite !app_nil_r.
  - intros q Hq. by apply rmtree_lookup_outside.
Qed.


(** C7. When [ebook-convert] is not found on the search path, the unpack
    step prints the fatal error and returns no result, whatever the file;
    the turn of the main loop ends normally and the loop goes on with the
    remaining files. *)
Theorem unpack_without_conversion_tool (E : Env) (C : Config) (w : World) :
  which E "ebook-convert" (fs w) = None →
  (∀ p, unpack_comic_with_calibre E p w =
          (mkWorld (fs w)
             (log w ++ [EPrint MsgNoEbookConvert; EPrint MsgInstallCalibre]),
           Ret None))
  ∧ (∀ total i f rest,
       main_loop E C total i (f :: rest) w =
       main_loop E C total (S i) rest
         (mkWorld (fs w)
            (log w ++
               [EPrint (MsgProgress i total);
                EPrint (MsgFile (pathlib.name (pathlib.parse f)));
                EPrint MsgNoEbookConvert; EPrint MsgInstallCalibre;
                EPrint (MsgDashes (21 + Str.len (Str.of_nat i)
                                   + Str.len (Str.of_nat total)));
                EPrint MsgBlank]))).
Proof.
  intros Hw. split.
  - intros p. by apply unpack_no_tool.
  - intros total i f rest.
    rewrite main_loop_cons, process_file_unfold.
    rewrite unpack_no_tool by done.
    unfold after_footer, after_header. cbn [fs log].
    by rewrite <- !app_assoc.
Qed.

Lemma unpack_leaves_no_temporary_files_witness :
  mkdir_outcome (pathlib.parse "/home/book.mobi") Demo.world = Ret tt
  ∧ os.exists_
      (fs (fst (unpack_comic_with_calibre Demo.env
                  (pathlib.parse "/home/book.mobi") Demo.world)))
      (temp_zip_of Demo.env (pathlib.parse "/home/book.mobi") Demo.world) = false.
Proof.
  split; [vm_compute; reflexivity|].
  apply (unpack_leaves_no_temporary_files Demo.env
           (pathlib.parse "/home/book.mobi") Demo.world "/usr/bin/ebook-convert");
    vm_compute; reflexivity.
Defined.

Lemma unpack_without_pictures_witness :
  snd (unpack_comic_with_calibre Demo.env
         (pathlib.parse "/home/text.mobi") Demo.world) = Ret None
  ∧ writes (log (fst (unpack_comic_with_calibre Demo.env
                        (pathlib.parse "/home/text.mobi") Demo.world))) = [].
Proof.
  destruct (unpack_without_pictures Demo.env
              (pathlib.parse "/home/text.mobi") Demo.world "/usr/bin/ebook-convert"
              [x50; x4b; x00] [("toc.ncx", Ret [x02])]) as (Heq & Hwr & _).
  1-5: vm_compute; reflexivity.
  - apply filter_is_image_nil. vm_compute. reflexivity.
  - split; [by rewrite Heq|exact Hwr].
Defined.


Lemma unpack_without_conversion_tool_witness :
  snd (main_loop Demo.env_without_calibre default_config 2 1
         ["/home/book.mobi"; "/home/text.mobi"] Demo.world) = Ret tt
  ∧ printed (log (fst (main_loop Demo.env_without_calibre default_config 2 1
                         ["/home/book.mobi"; "/home/text.mobi"] Demo.world))) =
      [MsgProgress 1 2; MsgFile "book.mobi"; MsgNoEbookConvert; MsgInstallCalibre;
       MsgDashes 23; MsgBlank;
       MsgProgress 2 2; MsgFile "text.mobi"; MsgNoEbookConvert; MsgInstallCalibre;
       MsgDashes 23; MsgBlank].
Proof.
  destruct (unpack_without_conversion_tool Demo.env_without_calibre default_config
              Demo.world eq_refl) as [_ Hloop].
  rewrite Hloop.
  destruct (unpack_without_conversion_tool Demo.env_without_calibre default_config
              (mkWorld (fs Demo.world)
                 (log Demo.world ++
                    [EPrint (MsgProgress 1 2);
                     EPrint (MsgFile (pathlib.name (pathlib.parse "/home/book.mobi")));
                     EPrint MsgNoEbookConvert; EPrint MsgInstallCalibre;
                     EPrint (MsgDashes (21 + Str.len (Str.of_nat 1)
                                        + Str.len (Str.of_nat 2)));
                     EPrint MsgBlank])) eq_refl) as [_ Hloop2].
  rewrite Hloop2. split; vm_compute; reflexivity.
Defined.

(** C10. The output directory is made before the conversion tool is
    called, and the step never takes anything out of it.  Provided the
    temporary directory is a new one and the tool itself leaves the output
    directory alone, in every run of the step: pictures are written to
    destination names only, the only tree removed is the temporary
    directory, and everything that was at or below the output directory
    before the step is unchanged unless a picture was written to that very
    path.  And once the directory has been made, it is a directory when
    the tool is called and still is one after the step, however the step
    ended. *)
Theorem unpack_keeps_output_directory (E : Env) (p : Path) (w : World) :
  let out := output_dir_of p in
  let t := temp_dir_of E p w in
  let w' := fst (unpack_comic_with_calibre E p w) in
  fresh_dir t (disk_after_mkdir p w) →
  (∀ q, pathlib.under out q →
        disk_after_convert E p w !! q = (<[t := Dir]> (disk_after_mkdir p w)) !! q) →
  ∃ l,
    log w' = log w ++ l
    ∧ (∀ q d, EWrite q d ∈ l →
         ∃ i n, q = out /: (Str.format_04d i +:+ pathlib.suffix (pathlib.parse n)))
    ∧ (∀ d, ERmtree d ∈ l → d = t)
    ∧ (∀ q nd, pathlib.under out q → fs w !! q = Some nd →
         (∀ d, EWrite q d ∉ l) → fs w' !! q = Some nd)
    ∧ (∀ exe,
         which E "ebook-convert" (fs w) = Some exe →
         mkdir_outcome p w = Ret tt →
         os.is_dir (disk_after_mkdir p w) out = true
         ∧ os.is_dir (fs w') out = true
         ∧ ∃ l',
             l = [EMkdir out; EPrint (MsgOutputDir out); EMkdtemp t;
                  EPrint MsgCallingCalibre;
                  ERun ["ebook-convert"; pathlib.to_str p;
                        pathlib.to_str (t /: "converted.zip")] false] ++ l').
Proof.
  intros out t w' Hfresh Htool.
  (* the tool is not found: two lines, nothing else *)
  destruct (which E "ebook-convert" (fs w)) as [exe|] eqn:Hw.
  2:{ exists [EPrint MsgNoEbookConvert; EPrint MsgInstallCalibre].
      unfold w'. rewrite unpack_no_tool by done. cbn [fst fs log].
      split_and!; [done| | |done|done].
      - intros q d Hin. repeat (apply elem_of_cons in Hin as [?|Hin]; [done|]).
        by apply elem_of_nil in Hin.
      - intros d Hin. repeat (apply elem_of_cons in Hin as [?|Hin]; [done|]).
        by apply elem_of_nil in Hin. }
  (* the directory after mkdir *)
  assert (∀ q nd, fs w !! q = Some nd → disk_after_mkdir p w !! q = Some nd) as Hmono.
  { unfold disk_after_mkdir.
    destruct (os.Path_mkdir true true (output_dir_of p) (fs w)) as [fs1 r1] eqn:Hmk.
    by apply Path_mkdir_spec in Hmk as (Hmono & _ & _). }
  destruct (mkdir_outcome p w) as [[]|e] eqn:Hm.
  2:{ exists []. unfold w'. unfold mkdir_outcome, disk_after_mkdir in *.
      destruct (os.Path_mkdir true true (output_dir_of p) (fs w)) as [fs1 r1] eqn:Hmk.
      simpl in *. subst r1.
      rewrite (unpack_mkdir_fails E p w exe fs1 e Hw Hmk). cbn [fst fs log].
      rewrite app_nil_r. split_and!; [done| | | |done].
      - by intros q d ?%elem_of_nil.
      - by intros d ?%elem_of_nil.
      - intros q nd _ Hq _. by apply Hmono. }
  assert (os.is_dir (disk_after_mkdir p w) out = true) as Hdir.
  { unfold disk_after_mkdir, mkdir_outcome in *.
    destruct (os.Path_mkdir true true (output_dir_of p) (fs w)) as [fs1 r1] eqn:Hmk.
    simpl in *. subst r1. apply Path_mkdir_spec in Hmk as (_ & Hd & _). by apply Hd. }
  (* what survives the tool and the extraction *)
  destruct (unpack_after_convert E p w exe Hw Hm)
    as (w3 & l & (l' & Hl' & Hdest & Hframe & Hdirs) & Hl3 & Hlog & Hfs).
  cbn [fs log] in *.
  assert (l' = l) as -> by (rewrite Hl3 in Hl'; by apply app_inv_head in Hl').
  assert (∀ q nd, pathlib.under out q → disk_after_mkdir p w !! q = Some nd →
                  ¬ pathlib.under t q ∧ disk_after_convert E p w !! q = Some nd)
    as Hkept.
  { intros q nd Hq Hnd.
    assert (¬ pathlib.under t q) as Hnt.
    { intros Hu. by rewrite (fresh_dir_lookup t _ q Hfresh Hu) in Hnd. }
    split; [done|]. rewrite Htool by done. rewrite lookup_insert_ne; [done|].
    intros <-. apply Hnt, under_refl. }
  set (head := [EMkdir out; EPrint (MsgOutputDir out); EMkdtemp t;
                EPrint MsgCallingCalibre;
                ERun ["ebook-convert"; pathlib.to_str p;
                      pathlib.to_str (t /: "converted.zip")] false]).
  assert (log_at_convert E p w = log w ++ head) as Hhead by done.
  exists (head ++ l ++ [ERmtree t]). split_and!.
  - unfold w'. rewrite Hlog, Hl3, Hhead. by rewrite <- !app_assoc.
  - intros q d [Hin|[Hin|Hin]%elem_of_app]%elem_of_app.
    + unfold head in Hin. repeat (apply elem_of_cons in Hin as [?|Hin]; [done|]).
      by apply elem_of_nil in Hin.
    + rewrite Forall_forall in Hdest. apply (Hdest _ Hin).
    + apply list_elem_of_singleton in Hin. done.
  - intros d [Hin|[Hin|Hin]%elem_of_app]%elem_of_app.
    + unfold head in Hin. repeat (apply elem_of_cons in Hin as [?|Hin]; [done|]).
      by apply elem_of_nil in Hin.
    + rewrite Forall_forall in Hdest. by destruct (Hdest _ Hin).
    + apply list_elem_of_singleton in Hin. by injection Hin.
  - intros q nd Hq Hnd Hnw. unfold w'. rewrite Hfs.
    destruct (Hkept q nd Hq (Hmono q nd Hnd)) as [Hnt Hc].
    rewrite rmtree_lookup_outside by done. rewrite Hframe; [done|].
    intros d Hd. apply (Hnw d). rewrite !elem_of_app. auto.
  - intros exe' _ _. split; [done|]. split; [|by exists (l ++ [ERmtree t])].
    unfold w'. rewrite Hfs. unfold os.is_dir, os.node_at in *.
    destruct (tail out) eqn:Htl; [done|].
    destruct (disk_after_mkdir p w !! out) as [[|]|] eqn:Hout; try done.
    destruct (Hkept out Dir (under_refl out) Hout) as [Hnt Hc].
    rewrite rmtree_lookup_outside by done. by rewrite (Hdirs out Hc).
Qed.

Lemma demo_tool_leaves_book q :
  pathlib.under (output_dir_of (pathlib.parse "/home/book.mobi")) q →
  disk_after_convert Demo.env (pathlib.parse "/home/book.mobi") Demo.world !! q =
  (<[temp_dir_of Demo.env (pathlib.parse "/home/book.mobi") Demo.world := Dir]>
     (disk_after_mkdir (pathlib.parse "/home/book.mobi") Demo.world)) !! q.
Proof.
  intros [_ [k Hk]].
  change (disk_after_convert Demo.env (pathlib.parse "/home/book.mobi") Demo.world)
    with (<[mkPath "/" ["tmp"; "tmpk3x9"; "converted.zip"] := File Demo.zip_magic]>
            (<[temp_dir_of Demo.env (pathlib.parse "/home/book.mobi") Demo.world := Dir]>
               (disk_after_mkdir (pathlib.parse "/home/book.mobi") Demo.world))).
  apply lookup_insert_ne. intros <-. vm_compute in Hk. discriminate.
Qed.

Lemma unpack_keeps_output_directory_witness :
  Demo.disk !! mkPath "/" ["home"; "book"; "notes.txt"] = Some (File [x6e])
  ∧ fs (fst (unpack_comic_with_calibre Demo.env
               (pathlib.parse "/home/book.mobi") Demo.world))
      !! mkPath "/" ["home"; "book"; "notes.txt"] = Some (File [x6e])
  ∧ os.is_dir
      (fs (fst (unpack_comic_with_calibre Demo.env
                  (pathlib.parse "/home/book.mobi") Demo.world)))
      (output_dir_of (pathlib.parse "/home/book.mobi")) = true.
Proof.
  split; [vm_compute; reflexivity|].
  destruct (unpack_keeps_output_directory Demo.env
              (pathlib.parse "/home/book.mobi") Demo.world)
    as (l & Hlog & Hdest & _ & Hkeep & Hdir).
  - apply (bool_decide_unpack _). vm_compute. exact I.
  - exact demo_tool_leaves_book.
  - split.
    + apply Hkeep.
      * apply (bool_decide_unpack _). vm_compute. exact I.
      * vm_compute; reflexivity.
      * intros d Hin. destruct (Hdest _ _ Hin) as (i & n & Heq).
        change (Str.format_04d i +:+ pathlib.suffix (pathlib.parse n))
          with (dest_filename i n) in Heq.
        rewrite dest_path_child in Heq. injection Heq as Heq.
        destruct (dest_filename_head i n) as (c & rest & Hc & Hd).
        rewrite <- Heq in Hc. injection Hc as <- _. done.
    + apply (Hdir "/usr/bin/ebook-convert"); vm_compute; reflexivity.
Defined.

(** ** Failures and the main loop *)






(** ** Sorting and filtering the entry names *)


Lemma sorted_Permutation names : sorted names ≡ₚ names.
Proof. apply merge_sort_Permutation. Qed.




(** ** The extraction loop when every picture can be written *)

Section ExtractionSucceeds.

Context (z : zip_archive) (out : Path).

Lemma is_dir_insert_file (fs0 : FS) q d p :
  os.is_dir fs0 p = true → os.is_dir (<[q := File d]> fs0) p = true
                          ∨ q = p.
Proof.
  destruct (decide (q = p)) as [->|Hne]; [by right|]. left.
  unfold os.is_dir, os.node_at in *. destruct (tail p); [done|].
  by rewrite lookup_insert_ne.
Qed.

Lemma no_subdirs_insert_file (fs0 : FS) q d :
  no_subdirs out fs0 → no_subdirs out (<[q := File d]> fs0).
Proof.
  unfold no_subdirs. intros H. apply map_Forall_insert_2; [done|].
  eapply map_Forall_impl; [exact H|]. done.
Qed.

Lemma no_subdirs_dest_free (fs0 : FS) i n :
  no_subdirs out fs0 → os.is_dir fs0 (out /: dest_filename i n) = false.
Proof.
  intros H. unfold os.is_dir, os.node_at.
  pose proof (dest_path_tail out i n) as Ht.
  destruct (tail (out /: dest_filename i n)); [done|].
  destruct (fs0 !! (out /: dest_filename i n)) as [[|]|] eqn:Hq; try done.
  exfalso. apply (dest_path_not_out out i n).
  apply (H _ _ Hq); [done|]. apply dest_path_under.
Qed.

Lemma extract_loop_ok names : ∀ i w,
  (∀ n, n ∈ names → ∃ d, zipfile.read z n = Ret d) →
  os.is_dir (fs w) out = true →
  no_subdirs out (fs w) →
  ∃ w',
    for_enumerate i names
      (λ i image_file_in_zip,
         bind (zip_read z image_file_in_zip)
           (λ image_data,
              write_file (out /: dest_filename i image_file_in_zip) image_data))
      w = (w', Ret tt)
    ∧ log w' = log w ++
        imap (λ k n, EWrite (out /: dest_filename (i + k) n) (entry_data z n)) names
    ∧ (∀ k n, names !! k = Some n →
         fs w' !! (out /: dest_filename (i + k) n) = Some (File (entry_data z n)))
    ∧ (∀ q, (∀ k n, names !! k = Some n → q ≠ out /: dest_filename (i + k) n) →
         fs w' !! q = fs w !! q).
Proof.
  induction names as [|n names IH]; intros i w Hread Hdir Hsub.
  - exists w. simpl. rewrite app_nil_r. split_and!; done.
  - destruct (Hread n) as [d Hd]; [by left|].
    assert (entry_data z n = d) as Hdata by (unfold entry_data; by rewrite Hd).
    set (dest := out /: dest_filename i n).
    set (w1 := mkWorld (<[dest := File d]> (fs w)) (log w ++ [EWrite dest d])).
    assert (write_file dest d w = (w1, Ret tt)) as Hwrite.
    { unfold write_file. unfold_py. simpl.
      rewrite write_bytes_ok; [done| |].
      - by apply no_subdirs_dest_free.
      - unfold dest. by rewrite dest_path_parent. }
    destruct (IH (S i) w1) as (w' & Hrun & Hlog & Hnew & Hold).
    { intros m Hm. apply Hread. by right. }
    { destruct (is_dir_insert_file (fs w) dest d out Hdir) as [?|Heq]; [done|].
      by destruct (dest_path_not_out out i n). }
    { by apply no_subdirs_insert_file. }
    exists w'. split_and!.
    + simpl. unfold bind at 1. unfold bind at 1. unfold zip_read at 1.
      rewrite Hd. unfold ret at 1. fold dest. rewrite Hwrite. exact Hrun.
    + rewrite Hlog. simpl. rewrite <- app_assoc. simpl.
      rewrite Nat.add_0_r, Hdata. fold dest. do 2 f_equal.
      apply imap_ext. intros k m _. simpl. by rewrite Nat.add_succ_r.
    + intros [|k] m Hk; simpl in Hk.
      * injection Hk as <-. rewrite Nat.add_0_r, Hdata. fold dest.
        rewrite Hold.
        -- simpl. by rewrite lookup_insert_eq.
        -- intros k m _ Heq. apply dest_path_inj_index in Heq. lia.
      * rewrite Nat.add_succ_r. by apply Hnew.
    + intros q Hq. rewrite Hold.
      * simpl. apply lookup_insert_ne. intros <-.
        apply (Hq 0 n); [done|]. by rewrite Nat.add_0_r.
      * intros k m Hk. replace (S i + k) with (i + S k) by lia.
        by apply (Hq (S k)).
Qed.

End ExtractionSucceeds.

(** ** The suffix of a picture name *)

Section PictureSuffix.

Import Str.

Lemma lower_char_dot c : lower_char c = dot → c = dot.
Proof. destruct c as [[] [] [] [] [] [] [] []]; vm_compute; congruence. Qed.

Lemma lower_char_keeps_dot : lower_char dot = dot.
Proof. reflexivity. Qed.

Lemma lower_char_keeps_slash : lower_char slash = slash.
Proof. reflexivity. Qed.

(** An extension is a dot followed by letters. *)
Lemma extension_shape e :
  lower e ∈ image_extensions →
  ∃ e', chars e = dot :: e' ∧ e' ≠ [] ∧ (dot ∉ e') ∧ (slash ∉ e').
Proof.
  intros Hin.
  assert (∃ x, lower_char <$> chars e = dot :: x ∧ x ≠ [] ∧ (dot ∉ x) ∧ (slash ∉ x))
    as (x & Hx & Hne & Hnd & Hns).
  { rewrite <- chars_lower. unfold image_extensions in Hin.
    repeat (apply elem_of_cons in Hin as [->|Hin]);
      [..|by apply elem_of_nil in Hin];
      eexists; (split; [reflexivity|]); (split; [done|]);
      split; apply (bool_decide_unpack _); vm_compute; exact I. }
  destruct (chars e) as [|c e']; [done|]. simpl in Hx. injection Hx as Hc Hx.
  exists e'. apply lower_char_dot in Hc as ->. split_and!; [done| | |].
  - intros ->. by subst x.
  - intros Hd. apply Hnd. subst x. rewrite <- lower_char_keeps_dot.
    by apply list_elem_of_fmap_2.
  - intros Hs. apply Hns. subst x. rewrite <- lower_char_keeps_slash.
    by apply list_elem_of_fmap_2.
Qed.

(** What [splitroot] takes away are leading slashes, two at most. *)
Lemma splitroot_rel s :
  ∃ k, chars (pathlib.splitroot s).2 = drop k (chars s)
       ∧ take k (chars s) = replicate k slash ∧ k ≤ length (chars s).
Proof.
  unfold pathlib.splitroot, slice_from.
  destruct (chars s) as [|c1 l1] eqn:H1.
  { exists 0. simpl. by rewrite H1. }
  destruct (decide (c1 = slash)) as [->|Hc1].
  2:{ exists 0. destruct c1 as [[] [] [] [] [] [] [] []]; simpl; rewrite ?H1;
        split_and!; solve [done|lia]. }
  destruct l1 as [|c2 l2].
  { exists 1. simpl. rewrite ?chars_text. split_and!; solve [done|lia]. }
  destruct (decide (c2 = slash)) as [->|Hc2].
  2:{ exists 1. destruct c2 as [[] [] [] [] [] [] [] []]; simpl;
        rewrite ?chars_text; split_and!; solve [done|lia]. }
  destruct l2 as [|c3 l3].
  { exists 2. simpl. rewrite ?chars_text. split_and!; solve [done|lia]. }
  destruct (decide (c3 = slash)) as [->|Hc3].
  - exists 1. simpl. rewrite ?chars_text. split_and!; solve [done|lia].
  - exists 2. destruct c3 as [[] [] [] [] [] [] [] []]; simpl;
      rewrite ?chars_text; split_and!; solve [done|lia].
Qed.

Lemma last_seg_nil cur l :
  last_seg cur l = [] ↔ (l = [] ∧ cur = []) ∨ last l = Some slash.
Proof.
  revert cur. induction l as [|c l IH]; intros cur; simpl.
  - split; [by left|]. by intros [[_ ->]|?].
  - destruct (Ascii.eqb_spec c slash) as [->|Hc].
    + rewrite IH. destruct l as [|c' l]; simpl.
      * split; [by right|by left].
      * split; intros [[? ?]|?]; try done; by right.
    + rewrite IH. destruct l as [|c' l]; simpl.
      * split; intros [[? ?]|?]; try done. congruence.
      * split; intros [[? ?]|?]; try done; by right.
Qed.

Lemma keep_long_component x :
  2 ≤ length x → pathlib.keep_component (text x) = true.
Proof.
  intros Hlen. unfold pathlib.keep_component.
  destruct (String.eqb_spec (text x) "") as [Heq|_].
  { apply (f_equal chars) in Heq. rewrite chars_text in Heq. subst x.
    simpl in Hlen. lia. }
  destruct (String.eqb_spec (text x) ".") as [Heq|_]; [|done].
  apply (f_equal chars) in Heq. rewrite chars_text in Heq. subst x.
  simpl in Hlen. lia.
Qed.

(** The last component kept by the parser, when the string ends in a
    run without slash that is two characters long or longer. *)
Lemma last_component l1 l2 : ∀ cur,
  slash ∉ l2 → 2 ≤ length l2 →
  List.last (List.filter pathlib.keep_component (split_slash_go cur (l1 ++ l2))) ""
  = text (reverse (last_seg cur l1) ++ l2).
Proof.
  intros cur Hfree Hlen. revert cur.
  induction l1 as [|c l1 IH]; intros cur; simpl.
  - rewrite split_slash_go_single by done. simpl.
    rewrite keep_long_component; [done|]. rewrite length_app. lia.
  - destruct (Ascii.eqb_spec c "/"%char) as [->|Hc].
    + change (Ascii.eqb slash slash) with true. cbn iota.
      specialize (IH []). simpl.
      assert (List.filter pathlib.keep_component (split_slash_go [] (l1 ++ l2)) ≠ [])
        as Hne.
      { intros Hnil. rewrite Hnil in IH. simpl in IH.
        apply (f_equal chars) in IH. rewrite chars_text in IH.
        symmetry in IH. apply app_nil in IH as [_ ->]. simpl in Hlen. lia. }
      destruct (List.filter _ (split_slash_go [] (l1 ++ l2))) as [|y ys] eqn:Hf;
        [done|].
      destruct (pathlib.keep_component (text (reverse cur))); exact IH.
    + destruct (Ascii.eqb_spec c slash) as [->|_]; [done|]. apply IH.
Qed.

Lemma rfind_dot_from_none k l : dot ∉ l → rfind_dot_from k l = None.
Proof.
  revert k. induction l as [|c l IH]; intros k Hl; simpl; [done|].
  rewrite IH by (intros ?; apply Hl; by right).
  destruct (Ascii.eqb_spec c "."%char) as [->|]; [|done].
  exfalso. apply Hl. by left.
Qed.

Lemma rfind_dot_from_last k a b :
  dot ∉ b → rfind_dot_from k (a ++ dot :: b) = Some (k + length a).
Proof.
  intros Hb. revert k. induction a as [|c a IH]; intros k; simpl.
  - rewrite rfind_dot_from_none by done. by rewrite Nat.add_0_r.
  - rewrite IH. f_equal. lia.
Qed.

Lemma bare_after_slashes k l :
  take k l = replicate k slash → k ≤ length l →
  (last (drop k l) = None ∨ last (drop k l) = Some slash)
  ↔ (last l = None ∨ last l = Some slash).
Proof.
  revert k. induction l as [|c l IH]; intros [|k] Ht Hk; simpl in *; try done; try lia.
  injection Ht as -> Ht. rewrite (IH k Ht) by lia.
  destruct l as [|c' l]; simpl; [|done]. split; intros _; [by right|by left].
Qed.

(** The suffix that [pathlib] gives to a picture name is the extension
    as it is written in the name, unless the extension is all there is of
    the last component: then the suffix is empty. *)
Lemma suffix_of_picture pre e :
  lower e ∈ image_extensions →
  pathlib.suffix (pathlib.parse (pre +:+ e)) = if bare_extension pre then "" else e.
Proof.
  intros Hext. destruct (extension_shape e Hext) as (e' & He & Hne & Hnd & Hns).
  unfold pathlib.parse.
  destruct (splitroot_rel (pre +:+ e)) as (k & Hrel & Htake & Hk).
  destruct (pathlib.splitroot (pre +:+ e)) as [root rel]. simpl in Hrel.
  rewrite chars_app, He in Hrel, Htake, Hk.
  (* the slashes taken away all stand before the extension *)
  assert (k ≤ length (chars pre)) as Hkp.
  { destruct (decide (k ≤ length (chars pre))) as [|Hgt]; [done|].
    assert ((chars pre ++ dot :: e') !! length (chars pre) = Some dot) as Hd.
    { by rewrite list_lookup_middle. }
    assert (take k (chars pre ++ dot :: e') !! length (chars pre) = Some dot) as Hd'.
    { rewrite lookup_take_lt by lia. done. }
    rewrite Htake in Hd'. apply lookup_replicate in Hd' as [Hd' _]. done. }
  rewrite drop_app_le in Hrel by done.
  rewrite take_app_le in Htake by done.
  unfold pathlib.suffix, pathlib.name. simpl.
  unfold split_slash. rewrite Hrel.
  rewrite last_component.
  2:{ intros [?|?]%elem_of_cons; done. }
  2:{ destruct e'; [done|]. simpl. lia. }
  set (seg := reverse (last_seg [] (drop k (chars pre)))).
  unfold pathlib.suffix_index, rfind_dot, len. rewrite chars_text.
  rewrite rfind_dot_from_last by done. simpl.
  rewrite length_app. simpl.
  assert (seg = [] ↔ last_seg [] (drop k (chars pre)) = []) as Hseg0.
  { unfold seg. split; intros Hs.
    - apply (f_equal reverse) in Hs. by rewrite reverse_involutive in Hs.
    - by rewrite Hs. }
  assert (seg = [] ↔ bare_extension pre = true) as Hbare.
  { rewrite Hseg0, last_seg_nil. unfold bare_extension. split.
    - intros Hs.
      assert (last (chars pre) = None ∨ last (chars pre) = Some slash) as [->| ->];
        [|done|done].
      apply (bare_after_slashes k); [done|done|].
      destruct Hs as [[-> _]| ->]; [by left|by right].
    - intros Hb.
      assert (last (drop k (chars pre)) = None ∨ last (drop k (chars pre)) = Some slash)
        as [Hl|Hl].
      { apply (bare_after_slashes k); [done|done|].
        destruct (last (chars pre)) as [c|]; [|by left]. right.
        apply Ascii.eqb_eq in Hb. by subst c. }
      + left. split; [|done]. by apply last_None.
      + by right. }
  destruct (bare_extension pre).
  - rewrite (proj2 Hbare eq_refl). done.
  - clearbody seg. destruct seg as [|c seg'].
    { by pose proof (proj1 Hbare eq_refl). }
    assert ((0 <? length (c :: seg'))%nat
            && (length (c :: seg') <? length (c :: seg') + S (length e') - 1)%nat = true)
      as ->.
    { apply andb_true_intro. split; apply Nat.ltb_lt; simpl; [lia|].
      destruct e'; [done|]. simpl. lia. }
    unfold slice_from. rewrite chars_text.
    rewrite drop_app_length. rewrite <- He. apply text_chars.
Qed.

End PictureSuffix.

Example suffix_of_picture_plain :
  pathlib.suffix (pathlib.parse ("images/p10" +:+ ".JPG")) = ".JPG".
Proof. by rewrite suffix_of_picture by (vm_compute; set_solver). Qed.

(** ** The unpack step when it succeeds *)

Lemma writes_imap {A} (f : nat → A → Path) (g : nat → A → list byte) l :
  writes (imap (λ k x, EWrite (f k x) (g k x)) l) = imap (λ k x, (f k x, g k x)) l.
Proof.
  revert f g. induction l as [|x l IH]; intros f g; [done|].
  simpl. f_equal. apply (IH (f ∘ S) (g ∘ S)).
Qed.


Lemma under_child_cases t d x :
  pathlib.under t (mkPath (anchor d) (tail d ++ [x])) →
  pathlib.under t d ∨ t = mkPath (anchor d) (tail d ++ [x]).
Proof.
  intros [Ha [k Hk]]. simpl in *.
  destruct k as [|y k _] using rev_ind.
  - right. rewrite app_nil_r in Hk. destruct t. simpl in *. by subst.
  - left. split; [done|]. exists k.
    rewrite app_assoc in Hk. by apply app_inj_tail in Hk as [? _].
Qed.

Lemma dest_path_outside t out i n :
  apart t out → ¬ pathlib.under t (out /: dest_filename i n).
Proof.
  intros [Hto Hot] Hu. rewrite dest_path_child in Hu.
  apply under_child_cases in Hu as [Hu| ->]; [done|].
  apply Hot. rewrite <- dest_path_child. apply dest_path_under.
Qed.

Section Success.

Context (E : Env) (p : Path) (w : World).


End Success.





(** * Further properties of the script *)

(** ** The repack step in general *)

(** X1. The repack step never raises and is contained: whatever the
    folder, the disk and the packer do, it returns normally, writes no file
    itself, and either starts nothing and leaves the disk as it found it
    (no KCC beside the script) or starts the packer exactly once and leaves
    the disk as the packer left it, with the result of the packer reported
    in the last line it prints. *)
Theorem repack_is_contained (E : Env) (C : Config) (folder : Path) (w : World) :
  let kcc_path := script_dir E /: KCC_EXE_FILENAME C in
  let command := kcc_command C kcc_path folder in
  let w' := fst (repack_with_kcc E C folder w) in
  snd (repack_with_kcc E C folder w) = Ret tt
  ∧ writes (log w') = writes (log w)
  ∧ (if os.is_file (fs w) kcc_path
     then runs (log w') = runs (log w) ++ [(command, true)]
          ∧ fs w' = fst (run E command true (fs w))
     else runs (log w') = runs (log w) ∧ fs w' = fs w).
Proof.
  intros kcc_path command w'. split; [apply repack_returns|].
  unfold w'. destruct (os.is_file (fs w) kcc_path) eqn:Hk.
  - rewrite repack_kcc_present by done. fold kcc_path. fold command.
    destruct (run E command true (fs w)) as [fs1 [[]|]]; cbn [fst fs log];
      rewrite !writes_app, !runs_app; simpl; rewrite !app_nil_r; done.
  - rewrite repack_kcc_missing by done. cbn [fst fs log].
    rewrite writes_app, runs_app. simpl. by rewrite !app_nil_r.
Qed.

(** X2. A packer that ends with a non-zero status ([CalledProcessError])
    is reported with its return code and with what it printed on both
    streams; any other exception of the call is reported as an unknown
    error.  In both cases the step returns normally, and the check for the
    output file is skipped. *)
Theorem repack_reports_packer_failure
    (E : Env) (C : Config) (folder : Path) (w : World) (e : exn) :
  let kcc_path := script_dir E /: KCC_EXE_FILENAME C in
  let command := kcc_command C kcc_path folder in
  os.is_file (fs w) kcc_path = true →
  snd (run E command true (fs w)) = Some e →
  snd (repack_with_kcc E C folder w) = Ret tt
  ∧ printed (log (fst (repack_with_kcc E C folder w))) =
      printed (log w) ++
        [MsgKccStage; MsgKccDetected kcc_path; MsgKccFolder (pathlib.name folder);
         MsgKccProfile (KCC_DEVICE_PROFILE C)] ++
        match e with
        | CalledProcessError rc out err =>
            [MsgKccFailed; MsgKccReturnCode rc; MsgKccOutput out err]
        | _ => [MsgKccUnknown e]
        end.
Proof.
  intros kcc_path command Hk Hrun. split; [apply repack_returns|].
  rewrite repack_kcc_present by done. fold kcc_path. fold command.
  destruct (run E command true (fs w)) as [fs1 r]. simpl in Hrun. subst r.
  destruct e; cbn [fst log]; rewrite !printed_app; simpl;
    by rewrite <- ?app_assoc.
Qed.

Lemma repack_reports_packer_failure_witness :
  let E := mkEnv (which Demo.env)
             (λ _ _ fs0, (fs0, Some (CalledProcessError 2 "out" "err")))
             (parse_zip Demo.env) (mkdtemp Demo.env) (script_dir Demo.env) in
  printed (log (fst (repack_with_kcc E default_config
                       (mkPath "/" ["home"; "book"]) Demo.world_with_kcc))) =
    [MsgKccStage; MsgKccDetected (mkPath "/" ["opt"; "mzy"; "kcc-c2e.exe"]);
     MsgKccFolder "book"; MsgKccProfile "KPW5";
     MsgKccFailed; MsgKccReturnCode 2; MsgKccOutput "out" "err"].
Proof.
  intros E.
  destruct (repack_reports_packer_failure E default_config
              (mkPath "/" ["home"; "book"]) Demo.world_with_kcc
              (CalledProcessError 2 "out" "err")) as [_ Hp].
  - vm_compute; reflexivity.
  - vm_compute; reflexivity.
  - rewrite Hp. vm_compute. reflexivity.
Defined.

(** ** Where the output directory lies *)

Section Layout.

Import Str.

Lemma last_filter_kept {A} (f : A → bool) (l : list A) d :
  List.filter f l ≠ [] → f (List.last (List.filter f l) d) = true.
Proof.
  intros Hne. destruct (last_elem_of (List.filter f l) d) as [Heq|Hin].
  - destruct (List.filter f l) as [|x l'] eqn:Hf; [done|].
    assert (List.last (x :: l') d ∈ List.filter f l) as Hin.
    { rewrite Hf. clear. revert x. induction l' as [|y l' IH]; intros x; simpl.
      - by left.
      - right. apply IH. }
    by apply List_filter_elem_of in Hin as [_ ?].
  - by apply List_filter_elem_of in Hin as [_ ?].
Qed.

(** The name of a parsed path with components is a proper component. *)
Lemma name_parse_proper s :
  tail (pathlib.parse s) ≠ [] →
  (slash ∉ chars (pathlib.name (pathlib.parse s)))
  ∧ pathlib.name (pathlib.parse s) ≠ ""
  ∧ pathlib.name (pathlib.parse s) ≠ ".".
Proof.
  intros Ht. split; [apply name_parse_slash_free|].
  assert (pathlib.keep_component (pathlib.name (pathlib.parse s)) = true) as Hk.
  { revert Ht. unfold pathlib.parse, pathlib.name.
    destruct (pathlib.splitroot s) as [root rel]. simpl.
    apply last_filter_kept. }
  unfold pathlib.keep_component in Hk. apply andb_true_iff in Hk as [H1 H2].
  split; intros Heq; rewrite Heq in *; done.
Qed.

Lemma parent_join_name p :
  tail p ≠ [] → mkPath (anchor p) (removelast (tail p) ++ [pathlib.name p]) = p.
Proof.
  intros Ht. unfold pathlib.name.
  rewrite <- (app_removelast_last "" Ht). apply Path_eta.
Qed.

(** Stem and suffix cut the name in two. *)
Lemma stem_suffix p : pathlib.stem p +:+ pathlib.suffix p = pathlib.name p.
Proof.
  unfold pathlib.stem, pathlib.suffix.
  destruct (pathlib.suffix_index (pathlib.name p)) as [i|].
  - unfold slice_to, slice_from. rewrite <- text_app, take_drop. apply text_chars.
  - apply chars_inj. by rewrite chars_app, app_nil_r.
Qed.

Lemma suffix_index_bounds nm i :
  pathlib.suffix_index nm = Some i → 0 < i ∧ i < len nm - 1.
Proof.
  unfold pathlib.suffix_index. destruct (rfind_dot nm) as [j|]; [|done].
  destruct (0 <? j)%nat eqn:H1; [|done].
  destruct (j <? len nm - 1)%nat eqn:H2; [|done].
  intros [= <-]. split; [by apply Nat.ltb_lt|by apply Nat.ltb_lt].
Qed.

Lemma suffix_empty_iff p :
  pathlib.suffix p = "" ↔ pathlib.suffix_index (pathlib.name p) = None.
Proof.
  unfold pathlib.suffix.
  destruct (pathlib.suffix_index (pathlib.name p)) as [i|] eqn:Hi; [|done].
  split; [|done]. intros Heq. apply suffix_index_bounds in Hi as [_ Hi].
  apply (f_equal len) in Heq. unfold slice_from, len in *.
  rewrite chars_text, length_drop in Heq. simpl in Heq. lia.
Qed.

(** The stem of a parsed path with components is a proper component,
    unless it is a single dot. *)
Lemma stem_parse_proper s :
  tail (pathlib.parse s) ≠ [] →
  (slash ∉ chars (pathlib.stem (pathlib.parse s)))
  ∧ pathlib.stem (pathlib.parse s) ≠ "".
Proof.
  intros Ht. destruct (name_parse_proper s Ht) as (Hfree & Hne & _).
  unfold pathlib.stem.
  destruct (pathlib.suffix_index _) as [i|] eqn:Hi; [|done].
  apply suffix_index_bounds in Hi as [Hi1 Hi2]. split.
  - unfold slice_to. rewrite chars_text. intros Hin. apply Hfree.
    eapply elem_of_sublist; [exact Hin|]. apply sublist_take.
  - intros Heq. apply (f_equal len) in Heq. unfold slice_to, len in *.
    rewrite chars_text, length_take in Heq. simpl in Heq. lia.
Qed.

Lemma output_dir_of_parse s :
  tail (pathlib.parse s) ≠ [] →
  pathlib.stem (pathlib.parse s) ≠ "." →
  output_dir_of (pathlib.parse s) =
    mkPath (anchor (pathlib.parse s))
      (removelast (tail (pathlib.parse s)) ++ [pathlib.stem (pathlib.parse s)]).
Proof.
  intros Ht Hd. destruct (stem_parse_proper s Ht) as [Hfree Hne].
  unfold output_dir_of. by rewrite joinpath_component.
Qed.

End Layout.

(** X3. The output directory lies beside the input file and is named by
    the stem of the input name: for every input path with at least one
    component whose stem is not a single dot, the parent of the output
    directory is the parent of the input and its name is the stem.  It is
    the input path itself exactly when the input name has no suffix. *)
Theorem output_directory_is_a_sibling (s : string) :
  let p := pathlib.parse s in
  let out := output_dir_of p in
  tail p ≠ [] →
  pathlib.stem p ≠ "." →
  pathlib.parent out = pathlib.parent p
  ∧ pathlib.name out = pathlib.stem p
  ∧ (out = p ↔ pathlib.suffix p = "").
Proof.
  intros p out Ht Hd. unfold out. unfold p at 1 3 5.
  rewrite output_dir_of_parse by done. fold p. split_and!.
  - unfold pathlib.parent. simpl. by rewrite removelast_last.
  - unfold pathlib.name. simpl. by rewrite last_last.
  - assert (mkPath (anchor p) (removelast (tail p) ++ [pathlib.stem p])
            = mkPath (anchor p) (removelast (tail p) ++ [pathlib.name p])
            ↔ pathlib.suffix p = "") as Hiff.
    { split.
      + intros [= Heq]. apply app_inv_head in Heq. injection Heq as Heq.
        pose proof (stem_suffix p) as Hs. rewrite Heq in Hs.
        apply (f_equal Str.chars) in Hs. rewrite chars_app in Hs.
        rewrite <- (app_nil_r (Str.chars (pathlib.name p))) in Hs at 2.
        apply app_inv_head in Hs. apply chars_inj. by rewrite Hs.
      + intros Hs. pose proof (stem_suffix p) as Hn. rewrite Hs in Hn.
        do 3 f_equal. rewrite <- Hn. apply chars_inj.
        by rewrite chars_app, app_nil_r. }
    by rewrite (parent_join_name p Ht) in Hiff.
Qed.

Lemma output_directory_is_a_sibling_witness :
  pathlib.parent (output_dir_of (pathlib.parse "/home/u/book.v1.mobi"))
    = mkPath "/" ["home"; "u"]
  ∧ pathlib.name (output_dir_of (pathlib.parse "/home/u/book.v1.mobi")) = "book.v1".
Proof.
  destruct (output_directory_is_a_sibling "/home/u/book.v1.mobi") as (Hp & Hn & _).
  - vm_compute. done.
  - vm_compute. done.
  - rewrite Hp, Hn. vm_compute. done.
Defined.

Lemma suffix_needs_components p : pathlib.suffix p ≠ "" → tail p ≠ [].
Proof.
  intros Hs Ht. apply Hs. unfold pathlib.suffix, pathlib.name. by rewrite Ht.
Qed.

Lemma join_parent_name s :
  tail (pathlib.parse s) ≠ [] →
  pathlib.parent (pathlib.parse s) /: pathlib.name (pathlib.parse s) = pathlib.parse s.
Proof.
  intros Ht. destruct (name_parse_proper s Ht) as (? & ? & ?).
  rewrite joinpath_component by done. simpl. by apply parent_join_name.
Qed.

(** X4. For an input named [<stem>.mobi] the file whose presence the
    repack step checks after the packer, [<title>.mobi] in the parent of
    the image folder, is the input file itself.  So when the packer ends
    with status 0 the step prints the success line if the input file is
    still there, and the warning if it is not, whatever the packer
    wrote. *)
Theorem expected_output_of_a_mobi_is_the_input
    (E : Env) (C : Config) (s : string) (w : World) :
  let p := pathlib.parse s in
  let out := output_dir_of p in
  let kcc_path := script_dir E /: KCC_EXE_FILENAME C in
  let command := kcc_command C kcc_path out in
  pathlib.suffix p = ".mobi" →
  pathlib.stem p ≠ "." →
  pathlib.parent out /: (pathlib.name out +:+ ".mobi") = p
  ∧ (os.is_file (fs w) kcc_path = true →
     snd (run E command true (fs w)) = None →
     last (printed (log (fst (repack_with_kcc E C out w)))) =
       Some (if os.exists_ (fst (run E command true (fs w))) p
             then MsgKccSuccess (pathlib.name p)
             else MsgKccOutputMissing (pathlib.name p))).
Proof.
  intros p out kcc_path command Hs Hd.
  assert (tail p ≠ []) as Ht by (apply suffix_needs_components; by rewrite Hs).
  assert (pathlib.name out = pathlib.stem p ∧ pathlib.parent out = pathlib.parent p)
    as [Hn Hp].
  { unfold out, p. rewrite output_dir_of_parse by done. fold p.
    unfold pathlib.name, pathlib.parent. simpl.
    by rewrite last_last, removelast_last. }
  assert (pathlib.name out +:+ ".mobi" = pathlib.name p) as Hfile.
  { rewrite Hn, <- Hs. apply stem_suffix. }
  assert (pathlib.parent out /: (pathlib.name out +:+ ".mobi") = p) as Hid.
  { rewrite Hfile, Hp. by apply join_parent_name. }
  split; [done|]. intros Hk Hrun.
  rewrite repack_kcc_present by done. fold kcc_path. fold command.
  destruct (run E command true (fs w)) as [fs1 r]. simpl in Hrun. subst r.
  cbn [fst log]. rewrite Hid, Hfile. rewrite printed_app.
  rewrite last_app. simpl. by destruct (os.exists_ fs1 p).
Qed.

Lemma expected_output_witness :
  last (printed (log (fst (repack_with_kcc Demo.env default_config
                            (output_dir_of (pathlib.parse "/home/book.mobi"))
                            Demo.world_with_kcc)))) =
    Some (MsgKccSuccess "book.mobi").
Proof.
  destruct (expected_output_of_a_mobi_is_the_input Demo.env default_config
              "/home/book.mobi" Demo.world_with_kcc) as [_ Hlast].
  - vm_compute; reflexivity.
  - vm_compute. done.
  - rewrite Hlast; vm_compute; reflexivity.
Defined.

(** X5. An input file whose name has no suffix names its own output
    directory; as the file is in the way the directory cannot be made, and
    the unpack step returns no result without printing a line and without
    touching the disk. *)
Theorem unpack_of_file_without_extension
    (E : Env) (s : string) (w : World) (exe : string) :
  let p := pathlib.parse s in
  which E "ebook-convert" (fs w) = Some exe →
  pathlib.suffix p = "" →
  os.is_file (fs w) p = true →
  output_dir_of p = p
  ∧ unpack_comic_with_calibre E p w = (mkWorld (fs w) (log w), Ret None).
Proof.
  intros p Hw Hs Hf.
  assert (tail p ≠ []) as Ht.
  { intros Ht. unfold os.is_file, os.node_at in Hf. by rewrite Ht in Hf. }
  destruct (name_parse_proper s Ht) as (Hfree & Hne & Hnd). fold p in Hfree, Hne, Hnd.
  assert (pathlib.stem p = pathlib.name p) as Hstem.
  { pose proof (stem_suffix p) as Hn. rewrite Hs in Hn. rewrite <- Hn.
    apply chars_inj. by rewrite chars_app, app_nil_r. }
  assert (output_dir_of p = p) as Hout.
  { unfold output_dir_of. rewrite Hstem. by apply join_parent_name. }
  split; [done|].
  apply (unpack_mkdir_fails E p w exe (fs w) FileExistsError Hw).
  rewrite Hout. unfold os.Path_mkdir.
  assert (os.mkdir p (fs w) = (fs w, Raise FileExistsError)) as Hmk.
  { unfold os.mkdir. unfold os.is_file in Hf.
    destruct (os.node_at (fs w) p) as [[|]|]; done. }
  assert (os.is_dir (fs w) p = false) as Hnd'.
  { unfold os.is_dir. unfold os.is_file in Hf.
    destruct (os.node_at (fs w) p) as [[|]|]; done. }
  destruct (length (tail p)); cbn [os.Path_mkdir_go]; rewrite Hmk, Hnd'; done.
Qed.

Lemma unpack_of_file_without_extension_witness :
  unpack_comic_with_calibre Demo.env (pathlib.parse "/home/comic") Demo.world
    = (mkWorld (fs Demo.world) (log Demo.world), Ret None).
Proof.
  apply (unpack_of_file_without_extension Demo.env "/home/comic" Demo.world
           "/usr/bin/ebook-convert"); vm_compute; reflexivity.
Defined.

(** ** The programs the unpack step starts, and what it lets escape *)

Lemma dest_events_start_nothing out l : Forall (dest_event out) l → runs l = [].
Proof.
  induction 1 as [|ev l Hev _ IH]; [done|].
  destruct ev; simpl in *; try done.
Qed.

Lemma unpack_runs (E : Env) (p : Path) (w : World) :
  runs (log (fst (unpack_comic_with_calibre E p w))) =
    runs (log w) ++
      match which E "ebook-convert" (fs w), mkdir_outcome p w with
      | Some _, Ret _ => [(convert_command p (temp_zip_of E p w), false)]
      | _, _ => []
      end.
Proof.
  destruct (which E "ebook-convert" (fs w)) as [exe|] eqn:Hw.
  2:{ rewrite unpack_no_tool by done. cbn [fst log]. by rewrite runs_app. }
  destruct (mkdir_outcome p w) as [[]|e] eqn:Hm.
  - destruct (unpack_after_convert E p w exe Hw Hm)
      as (w3 & l & (l' & Hl' & Hdest & _) & Hl3 & Hlog & _).
    cbn [log] in Hl'. rewrite Hlog, Hl', !runs_app.
    rewrite (dest_events_start_nothing _ _ Hdest). unfold log_at_convert.
    rewrite runs_app. simpl. by rewrite !app_nil_r.
  - unfold mkdir_outcome in Hm.
    destruct (os.Path_mkdir true true (output_dir_of p) (fs w)) as [fs1 r1] eqn:Hmk.
    simpl in Hm. subst r1.
    rewrite (unpack_mkdir_fails E p w exe fs1 e Hw Hmk). cbn [fst log].
    by rewrite app_nil_r.
Qed.

(** X6. The only program the unpack step ever starts is the conversion
    tool: once, without a shell, as
    [ebook-convert <input path> <temporary directory>/converted.zip], when
    the tool is found and the output directory can be made, and not at all
    otherwise. *)
Theorem unpack_starts_only_the_conversion_tool (E : Env) (p : Path) (w : World) :
  runs (log (fst (unpack_comic_with_calibre E p w))) =
    runs (log w) ++
      match which E "ebook-convert" (fs w), mkdir_outcome p w with
      | Some _, Ret _ =>
          [(["ebook-convert"; pathlib.to_str p;
             pathlib.to_str (temp_dir_of E p w /: "converted.zip")], false)]
      | _, _ => []
      end.
Proof. apply unpack_runs. Qed.

(** What the guarded extraction lets escape is no [BadZipFile]. *)
Lemma guarded_extraction_raise (E : Env) zip out w e :
  snd (try_except (extract_images E zip out) is_BadZipFile
         (λ _, bind (print MsgBadZip) (λ _, ret None)) w) = Raise e →
  is_BadZipFile e = false.
Proof.
  unfold try_except.
  destruct (extract_images E zip out w) as [w1 [r|e1]]; [done|].
  destruct (is_BadZipFile e1) eqn:Hb; [done|]. simpl. by intros [= <-].
Qed.

(** X7. The unpack step raises only from the extraction: when an
    exception escapes it, the tool had been found, the output directory
    made and the conversion ended without exception, and the exception is
    no [BadZipFile].  Every failure before the extraction is turned into
    a return without result. *)
Theorem unpack_raises_only_from_the_extraction
    (E : Env) (p : Path) (w : World) (e : exn) :
  snd (unpack_comic_with_calibre E p w) = Raise e →
  is_BadZipFile e = false
  ∧ (∃ exe, which E "ebook-convert" (fs w) = Some exe)
  ∧ mkdir_outcome p w = Ret tt
  ∧ convert_outcome E p w = None.
Proof.
  intros Hr.
  destruct (which E "ebook-convert" (fs w)) as [exe|] eqn:Hw.
  2:{ by rewrite unpack_no_tool in Hr. }
  destruct (mkdir_outcome p w) as [[]|e1] eqn:Hm.
  2:{ unfold mkdir_outcome in Hm.
      destruct (os.Path_mkdir true true (output_dir_of p) (fs w)) as [fs1 r1] eqn:Hmk.
      simpl in Hm. subst r1.
      by rewrite (unpack_mkdir_fails E p w exe fs1 e1 Hw Hmk) in Hr. }
  destruct (convert_outcome E p w) as [e1|] eqn:Hc.
  { by rewrite (unpack_convert_failed E p w exe e1) in Hr. }
  rewrite (unpack_converted E p w exe) in Hr by done. cbn [snd] in Hr.
  apply guarded_extraction_raise in Hr. split_and!; eauto.
Qed.

Lemma unpack_raises_witness :
  snd (unpack_comic_with_calibre Demo.env (pathlib.parse "/home/dir.mobi") Demo.world)
    = Raise IsADirectoryError
  ∧ convert_outcome Demo.env (pathlib.parse "/home/dir.mobi") Demo.world = None.
Proof.
  assert (snd (unpack_comic_with_calibre Demo.env (pathlib.parse "/home/dir.mobi")
                 Demo.world) = Raise IsADirectoryError) as Hr
    by (vm_compute; reflexivity).
  split; [exact Hr|].
  by destruct (unpack_raises_only_from_the_extraction _ _ _ _ Hr) as (_ & _ & _ & ?).
Defined.

(** X8. An output directory that is already there is accepted as it is:
    making it succeeds and changes nothing on the disk, so the step can be
    run again on the same input. *)
Theorem unpack_accepts_existing_output_directory (p : Path) (w : World) :
  os.is_dir (fs w) (output_dir_of p) = true →
  mkdir_outcome p w = Ret tt ∧ disk_after_mkdir p w = fs w.
Proof.
  intros Hd. unfold mkdir_outcome, disk_after_mkdir, os.Path_mkdir.
  assert (os.mkdir (output_dir_of p) (fs w) = (fs w, Raise FileExistsError)) as Hmk.
  { unfold os.mkdir. unfold os.is_dir in Hd.
    destruct (os.node_at (fs w) (output_dir_of p)) as [[|]|]; done. }
  destruct (length (tail (output_dir_of p))); cbn [os.Path_mkdir_go];
    rewrite Hmk, Hd; done.
Qed.

Lemma unpack_accepts_existing_witness :
  mkdir_outcome (pathlib.parse "/home/book.mobi") Demo.world = Ret tt.
Proof.
  apply (unpack_accepts_existing_output_directory
           (pathlib.parse "/home/book.mobi") Demo.world).
  vm_compute; reflexivity.
Defined.

(** X9. When the tool ends without exception but leaves no file where
    the archive was asked for, opening the archive raises
    [FileNotFoundError], which nothing catches: the temporary directory is
    removed, nothing is written, and the main loop ends there, before the
    footer of the turn and without beginning any of the remaining
    files. *)
Theorem missing_archive_ends_the_run
    (E : Env) (C : Config) (total i : nat) (f : string) (rest : list string)
    (w0 : World) (exe : string) :
  let p := pathlib.parse f in
  let w := after_header total i f w0 in
  which E "ebook-convert" (fs w) = Some exe →
  mkdir_outcome p w = Ret tt →
  convert_outcome E p w = None →
  os.node_at (disk_after_convert E p w) (temp_zip_of E p w) = None →
  main_loop E C total i (f :: rest) w0 =
    (mkWorld (os.rmtree (temp_dir_of E p w) (disk_after_convert E p w))
       (log_at_convert E p w ++
          [EPrint MsgConvertOk; EPrint MsgExtracting; ERmtree (temp_dir_of E p w)]),
     Raise FileNotFoundError).
Proof.
  intros p w Hw Hm Hc Hz.
  rewrite main_loop_cons, process_file_unfold. fold p. fold w.
  rewrite (unpack_converted E p w exe) by done.
  unfold try_except, extract_images, ZipFile, world_at_extract. unfold_py.
  cbn [fs log]. rewrite Hz. cbn [fst snd fs log is_BadZipFile].
  by rewrite <- !app_assoc.
Qed.

Lemma missing_archive_witness :
  let E := mkEnv (which Demo.env) (λ _ _ fs0, (fs0, None))
             (parse_zip Demo.env) (mkdtemp Demo.env) (script_dir Demo.env) in
  snd (main_loop E default_config 2 1 ["/home/book.mobi"; "/home/text.mobi"]
         Demo.world) = Raise FileNotFoundError.
Proof.
  intros E.
  rewrite (missing_archive_ends_the_run E default_config 2 1 "/home/book.mobi"
             ["/home/text.mobi"] Demo.world "/usr/bin/ebook-convert");
    [reflexivity|vm_compute; reflexivity..].
Defined.

(** ** Whole runs *)

Lemma files_started_app l1 l2 :
  files_started (l1 ++ l2) = files_started l1 ++ files_started l2.
Proof. apply omap_app. Qed.

(** X10. Without Calibre on the search path a whole run is harmless and
    complete: for every list of input files the program begins every file
    in the order given, starts no program, writes no file, leaves the disk
    as it was, and ends normally with the wait for the Enter key. *)
Theorem run_without_calibre_is_harmless
    (E : Env) (C : Config) (files : list string) (w : World) :
  (∀ fs0, which E "ebook-convert" fs0 = None) →
  let w' := fst (main E C files w) in
  snd (main E C files w) = Ret tt
  ∧ fs w' = fs w
  ∧ runs (log w') = runs (log w)
  ∧ writes (log w') = writes (log w)
  ∧ files_started (log w') =
      files_started (log w) ++ ((λ f, pathlib.name (pathlib.parse f)) <$> files)
  ∧ last (log w') = Some EInput.
Proof.
  intros Hno.
  assert (∀ total fl i w0,
    ∃ w1, main_loop E C total i fl w0 = (w1, Ret tt)
          ∧ fs w1 = fs w0
          ∧ runs (log w1) = runs (log w0)
          ∧ writes (log w1) = writes (log w0)
          ∧ files_started (log w1) =
              files_started (log w0) ++ ((λ f, pathlib.name (pathlib.parse f)) <$> fl))
    as Hloop.
  { intros total fl. induction fl as [|f fl IH]; intros i w0.
    - exists w0. simpl. rewrite app_nil_r. done.
    - rewrite main_loop_cons, process_file_unfold.
      rewrite unpack_no_tool by apply Hno.
      destruct (IH (S i)
                  (after_footer total i
                     (mkWorld (fs (after_header total i f w0))
                        (log (after_header total i f w0) ++
                           [EPrint MsgNoEbookConvert; EPrint MsgInstallCalibre]))))
        as (w1 & Hrun & Hfs & Hr & Hwr & Hst).
      exists w1. split; [done|]. cbn [after_footer after_header fs log] in *.
      rewrite Hfs, Hr, Hwr, Hst.
      rewrite !runs_app, !writes_app, !files_started_app. simpl.
      rewrite !app_nil_r, <- !app_assoc. done. }
  intros w'. unfold w'. clear w'. destruct files as [|f fl].
  - unfold main. unfold_py. cbn [fst snd fs log].
    rewrite !runs_app, !writes_app, !files_started_app, last_snoc. simpl.
    rewrite !app_nil_r. done.
  - remember (f :: fl) as files eqn:Hfiles.
    destruct (Hloop (length files) files 1
                (mkWorld (fs w) (log w ++ [EPrint (MsgDetected (length files))])))
      as (w1 & Hrun & Hfs & Hr & Hwr & Hst).
    assert (main E C files w =
              (mkWorld (fs w1)
                 (log w1 ++ [EPrint MsgAllDone; EPrint MsgPressEnter; EInput]),
               Ret tt)) as Hmain.
    { unfold main. rewrite Hfiles. rewrite <- Hfiles.
      unfold bind at 1. unfold bind at 1. unfold bind at 1.
      unfold print at 1, emit at 1. rewrite Hrun.
      unfold_py. cbn [fs log]. by rewrite <- !app_assoc. }
    rewrite Hmain. cbn [fst snd fs log] in *.
    rewrite !runs_app, !writes_app, !files_started_app.
    rewrite Hfs, Hr, Hwr, Hst, !runs_app, !writes_app, !files_started_app.
    simpl. rewrite !app_nil_r. split_and!; try done.
    change [EPrint MsgAllDone; EPrint MsgPressEnter; EInput]
      with ([EPrint MsgAllDone; EPrint MsgPressEnter] ++ [EInput]).
    rewrite app_assoc. apply last_snoc.
Qed.

Lemma run_without_calibre_witness :
  files_started
    (log (fst (main Demo.env_without_calibre default_config
                 ["/home/book.mobi"; "/home/comic"] Demo.world)))
    = ["book.mobi"; "comic"].
Proof.
  destruct (run_without_calibre_is_harmless Demo.env_without_calibre default_config
              ["/home/book.mobi"; "/home/comic"] Demo.world)
    as (_ & _ & _ & _ & Hst & _).
  - intros fs0. reflexivity.
  - rewrite Hst. vm_compute. reflexivity.
Defined.

Lemma turn_runs_without_repack (E : Env) (C : Config) total i f w :
  REPACK_AFTER_UNPACK C = false →
  ∃ rs, runs (log (fst (process_file E C total i f w))) = runs (log w) ++ rs
        ∧ Forall (λ r, ∃ a b, r = (["ebook-convert"; a; b], false)) rs.
Proof.
  intros Hoff. rewrite process_file_unfold, Hoff.
  pose proof (unpack_runs E (pathlib.parse f) (after_header total i f w)) as Hr.
  assert (runs (log (after_header total i f w)) = runs (log w)) as Hh.
  { unfold after_header. cbn [log]. rewrite runs_app. simpl. by rewrite app_nil_r. }
  rewrite Hh in Hr.
  exists (match which E "ebook-convert" (fs (after_header total i f w)),
                mkdir_outcome (pathlib.parse f) (after_header total i f w) with
          | Some _, Ret _ =>
              [(convert_command (pathlib.parse f)
                  (temp_zip_of E (pathlib.parse f) (after_header total i f w)), false)]
          | _, _ => []
          end).
  split.
  - rewrite <- Hr.
    destruct (unpack_comic_with_calibre E _ _) as [w1 [[folder|]|e]];
      cbn [fst after_footer log]; rewrite ?runs_app; simpl;
      rewrite ?app_nil_r; done.
  - destruct (which E "ebook-convert" _); [|done].
    destruct (mkdir_outcome _ _); [|done].
    constructor; [|done]. unfold convert_command. eauto.
Qed.

(** X11. With [REPACK_AFTER_UNPACK] set to [False] the packer is never
    started: over a whole loop, whatever the files, the only programs
    started are calls of [ebook-convert] with two arguments and without a
    shell. *)
Theorem no_packer_when_repack_is_off
    (E : Env) (C : Config) (total : nat) (files : list string) (i : nat) (w : World) :
  REPACK_AFTER_UNPACK C = false →
  ∃ rs, runs (log (fst (main_loop E C total i files w))) = runs (log w) ++ rs
        ∧ Forall (λ r, ∃ a b, r = (["ebook-convert"; a; b], false)) rs.
Proof.
  intros Hoff. revert i w. induction files as [|f files IH]; intros i w.
  - exists []. simpl. by rewrite app_nil_r.
  - rewrite main_loop_cons.
    destruct (turn_runs_without_repack E C total i f w Hoff) as (rs1 & Hr1 & Hall1).
    destruct (process_file E C total i f w) as [w1 [[]|e]]; cbn [fst] in *.
    + destruct (IH (S i) w1) as (rs2 & Hr2 & Hall2).
      exists (rs1 ++ rs2). split.
      * by rewrite Hr2, Hr1, app_assoc.
      * by apply Forall_app.
    + by exists rs1.
Qed.

Lemma no_packer_witness :
  ∃ rs,
    runs (log (fst (main_loop Demo.env (mkConfig "KPW5" false "kcc-c2e.exe") 2 1
                      ["/home/book.mobi"; "/home/broken.mobi"] Demo.world_with_kcc)))
      = runs (log Demo.world_with_kcc) ++ rs
    ∧ Forall (λ r, ∃ a b, r = (["ebook-convert"; a; b], false)) rs.
Proof.
  apply (no_packer_when_repack_is_off Demo.env (mkConfig "KPW5" false "kcc-c2e.exe")
           2 ["/home/book.mobi"; "/home/broken.mobi"] 1 Demo.world_with_kcc).
  reflexivity.
Defined.

(** ** The order of the page names *)

Section PageOrder.

Import Str.

Lemma text_cons c l : text (c :: l) = String c (text l).
Proof. reflexivity. Qed.

Lemma decimal_value_cons c l :
  decimal_value (c :: l) = digit_value c * 10 ^ length l + decimal_value l.
Proof.
  unfold decimal_value. cbn [foldl].
  assert (∀ a, foldl (λ acc c0, 10 * acc + digit_value c0) a l
               = a * 10 ^ length l + foldl (λ acc c0, 10 * acc + digit_value c0) 0 l)
    as Hgen.
  { induction l as [|x l IH]; intros a; cbn [foldl length].
    - rewrite Nat.pow_0_r. lia.
    - rewrite (IH (10 * a + digit_value x)), (IH (10 * 0 + digit_value x)).
      rewrite Nat.pow_succ_r'. lia. }
  rewrite Hgen. lia.
Qed.

Lemma digit_value_bound c : is_digit c = true → digit_value c < 10.
Proof.
  unfold is_digit, digit_value. intros [H1 H2]%andb_true_iff.
  apply Nat.leb_le in H1, H2. lia.
Qed.

Lemma decimal_value_bound l :
  Forall (λ c, is_digit c = true) l → decimal_value l < 10 ^ length l.
Proof.
  induction 1 as [|c l Hc _ IH]; [cbv; lia|].
  rewrite decimal_value_cons. apply digit_value_bound in Hc.
  cbn [length]. rewrite Nat.pow_succ_r'. nia.
Qed.

Lemma digit_compare c1 c2 :
  is_digit c1 = true → is_digit c2 = true →
  Ascii.compare c1 c2 = Nat.compare (digit_value c1) (digit_value c2).
Proof.
  unfold is_digit, digit_value, Ascii.compare, nat_of_ascii.
  intros [H1 _]%andb_true_iff [H2 _]%andb_true_iff.
  apply Nat.leb_le in H1, H2.
  rewrite N2Nat.inj_compare.
  destruct (Nat.compare_spec (N.to_nat (N_of_ascii c1)) (N.to_nat (N_of_ascii c2)));
    symmetry; [apply Nat.compare_eq_iff|apply Nat.compare_lt_iff
              |apply Nat.compare_gt_iff]; lia.
Qed.

(** Strings of digits of one length compare as the numbers they
    write. *)
Lemma digits_compare l1 : ∀ l2,
  length l1 = length l2 →
  Forall (λ c, is_digit c = true) l1 →
  Forall (λ c, is_digit c = true) l2 →
  String.compare (text l1) (text l2)
    = Nat.compare (decimal_value l1) (decimal_value l2).
Proof.
  induction l1 as [|c1 l1 IH]; intros [|c2 l2] Hlen H1 H2; try done.
  injection Hlen as Hlen. inversion H1 as [|? ? Hc1 Hl1]; subst.
  inversion H2 as [|? ? Hc2 Hl2]; subst.
  rewrite !text_cons. cbn [String.compare].
  rewrite digit_compare by done. rewrite (IH l2) by done.
  rewrite !decimal_value_cons, Hlen.
  pose proof (decimal_value_bound l1 Hl1) as Hb1.
  pose proof (decimal_value_bound l2 Hl2) as Hb2. rewrite Hlen in Hb1.
  destruct (Nat.compare_spec (digit_value c1) (digit_value c2)) as [Heq|Hlt|Hgt].
  - rewrite Heq.
    destruct (Nat.compare_spec (decimal_value l1) (decimal_value l2));
      symmetry; [apply Nat.compare_eq_iff|apply Nat.compare_lt_iff
                |apply Nat.compare_gt_iff]; lia.
  - symmetry. apply Nat.compare_lt_iff. nia.
  - symmetry. apply Nat.compare_gt_iff. nia.
Qed.

End PageOrder.

(** X12. The zero padding makes the order of the names the order of the
    pages: for sequence numbers up to 9999 the names compare, as strings,
    exactly as the numbers do. *)
Theorem page_names_sort_as_page_numbers (i j : nat) :
  i < 10000 → j < 10000 →
  String.compare (Str.format_04d i) (Str.format_04d j) = Nat.compare i j.
Proof.
  intros Hi Hj.
  rewrite <- (text_chars (Str.format_04d i)), <- (text_chars (Str.format_04d j)).
  rewrite digits_compare.
  - by rewrite !format_04d_value.
  - pose proof (format_04d_length_4 i Hi) as H1.
    pose proof (format_04d_length_4 j Hj) as H2.
    unfold Str.len in *. congruence.
  - apply format_04d_digits.
  - apply format_04d_digits.
Qed.

(** Page 9 sorts before page 10; beyond the bound the agreement is lost,
    page 10000 sorts before page 9999. *)
Lemma page_names_sort_witness :
  String.compare (Str.format_04d 9) (Str.format_04d 10) = Lt
  ∧ String.compare (Str.format_04d 10000) (Str.format_04d 9999) = Lt.
Proof.
  split; [|vm_compute; reflexivity].
  rewrite (page_names_sort_as_page_numbers 9 10);
    [reflexivity|apply Nat.ltb_lt; vm_compute; reflexivity..].
Defined.

(** ** Extractions that stop early, and what a returned folder means *)

Section LoopFacts.

Context (z : zip_archive) (out : Path).

Local Abbreviation extract_body :=
  (λ (i : nat) (image_file_in_zip : string),
     bind (zip_read z image_file_in_zip)
       (λ image_data,
          write_file (out /: dest_filename i image_file_in_zip) image_data)).

(** A loop over two lists in a row is the loop over the first followed,
    unless it raised, by the loop over the second. *)
Lemma for_enumerate_app {A} (body : nat → A → M unit) (l1 l2 : list A) : ∀ i w,
  for_enumerate i (l1 ++ l2) body w =
    match for_enumerate i l1 body w with
    | (w1, Ret _) => for_enumerate (i + length l1) l2 body w1
    | (w1, Raise e) => (w1, Raise e)
    end.
Proof.
  induction l1 as [|x l1 IH]; intros i w; simpl.
  - unfold ret. by rewrite Nat.add_0_r.
  - unfold bind. destruct (body i x w) as [w1 [[]|e]]; [|done].
    rewrite IH. by replace (S i + length l1) with (i + S (length l1)) by lia.
Qed.

(** A loop that returned has written every name it was given. *)
Lemma extract_loop_ret names : ∀ i w w',
  for_enumerate i names extract_body w = (w', Ret tt) →
  log w' = log w ++
    imap (λ k n, EWrite (out /: dest_filename (i + k) n) (entry_data z n)) names.
Proof.
  induction names as [|n names IH]; intros i w w'; simpl.
  - intros [= <-]. by rewrite app_nil_r.
  - unfold bind at 1. unfold bind at 1. unfold zip_read at 1. unfold entry_data at 1.
    destruct (zipfile.read z n) as [data|e]; [|done]. unfold ret at 1.
    unfold write_file, bind, on_fs, emit.
    destruct (os.write_bytes _ data (fs w)) as [fs1 [[]|e]]; [|done]. cbn [fs log].
    intros Hrest. apply IH in Hrest. rewrite Hrest. cbn [log].
    rewrite <- app_assoc. cbn [app]. rewrite Nat.add_0_r. do 2 f_equal.
    apply imap_ext. intros k m _. simpl. by rewrite Nat.add_succ_r.
Qed.

(** The loop stops at the first entry that cannot be read. *)
Lemma extract_loop_stops written bad rest e i w :
  (∀ n, n ∈ written → ∃ d, zipfile.read z n = Ret d) →
  zipfile.read z bad = Raise e →
  os.is_dir (fs w) out = true →
  no_subdirs out (fs w) →
  ∃ w1,
    for_enumerate i (written ++ bad :: rest) extract_body w = (w1, Raise e)
    ∧ log w1 = log w ++
        imap (λ k n, EWrite (out /: dest_filename (i + k) n) (entry_data z n)) written
    ∧ (∀ k n, written !! k = Some n →
         fs w1 !! (out /: dest_filename (i + k) n) = Some (File (entry_data z n))).
Proof.
  intros Hread Hbad Hdir Hsub.
  destruct (extract_loop_ok z out written i w Hread Hdir Hsub)
    as (w1 & Hrun & Hlog & Hnew & _).
  exists w1. split_and!; [|done|done].
  rewrite for_enumerate_app, Hrun. simpl.
  unfold bind at 1. unfold bind at 1. unfold zip_read at 1. by rewrite Hbad.
Qed.

End LoopFacts.

Lemma sorted_nil : sorted [] = [].
Proof. reflexivity. Qed.

(** X13. When an entry among the pictures cannot be read, the extraction
    stops there: the pictures that sort before the entry have been written
    and stay on the disk, nothing is written for the entry or after it,
    and the step returns no result with the line about an invalid zip file
    if the read raised [BadZipFile], and lets any other exception
    escape. *)
Theorem unreadable_entry_stops_the_extraction
    (E : Env) (p : Path) (w : World) (exe : string) (data : list byte)
    (z : zip_archive) (written : list string) (bad : string) (rest : list string)
    (e : exn) :
  let out := output_dir_of p in
  let t := temp_dir_of E p w in
  let w' := fst (unpack_comic_with_calibre E p w) in
  let dest := λ (i : nat) (n : string),
    out /: (Str.format_04d (S i) +:+ pathlib.suffix (pathlib.parse n)) in
  which E "ebook-convert" (fs w) = Some exe →
  mkdir_outcome p w = Ret tt →
  convert_outcome E p w = None →
  os.node_at (disk_after_convert E p w) (temp_zip_of E p w) = Some (File data) →
  parse_zip E data = Some z →
  sorted (List.filter is_image (zipfile.namelist z)) = written ++ bad :: rest →
  (∀ n, n ∈ written → ∃ d, zipfile.read z n = Ret d) →
  zipfile.read z bad = Raise e →
  os.is_dir (disk_after_convert E p w) out = true →
  no_subdirs out (disk_after_convert E p w) →
  apart t out →
  snd (unpack_comic_with_calibre E p w)
    = (if is_BadZipFile e then Ret None else Raise e)
  ∧ writes (log w') = writes (log w) ++ imap (λ i n, (dest i n, entry_data z n)) written
  ∧ (∀ i n, written !! i = Some n → fs w' !! dest i n = Some (File (entry_data z n)))
  ∧ (is_BadZipFile e = true → last (printed (log w')) = Some MsgBadZip).
Proof.
  intros out t w' dest Hw Hm Hc Hz Hp Hsorted Hread Hbad Hdir Hsub Hapart.
  destruct (extract_loop_stops z out written bad rest e 1 (world_at_extract E p w)
              Hread Hbad Hdir Hsub) as (w1 & Hrun & Hlog & Hnew).
  assert (try_except (extract_images E (temp_zip_of E p w) out)
            is_BadZipFile (λ _, bind (print MsgBadZip) (λ _, ret None))
            (world_at_extract E p w)
          = if is_BadZipFile e
            then (mkWorld (fs w1) (log w1 ++ [EPrint MsgBadZip]), Ret None)
            else (w1, Raise e)) as Hx.
  { unfold try_except, extract_images, ZipFile.
    unfold bind at 1. unfold bind at 1. unfold read_fs at 1.
    change (fs (world_at_extract E p w)) with (disk_after_convert E p w).
    rewrite Hz. unfold ret at 1. rewrite Hp. unfold ret at 1.
    destruct (List.filter is_image (zipfile.namelist z)) as [|n0 l0] eqn:Hf.
    { rewrite sorted_nil in Hsorted. by destruct written. }
    unfold bind at 1. rewrite Hsorted, Hrun.
    destruct (is_BadZipFile e); [|done]. unfold_py. done. }
  unfold w'. rewrite (unpack_converted E p w exe) by done. fold out. rewrite Hx.
  destruct (is_BadZipFile e) eqn:Hb; cbn [fst snd fs log]; split_and!; try done.
  - rewrite Hlog, !writes_app. unfold world_at_extract, log_at_convert. cbn [log].
    rewrite !writes_app. simpl. rewrite !app_nil_r. f_equal.
    apply (writes_imap (λ k n, dest k n) (λ _ n, entry_data z n)).
  - intros i n Hi. rewrite rmtree_lookup_outside by (by apply dest_path_outside).
    by apply Hnew.
  - intros _. rewrite !printed_app. simpl. rewrite app_nil_r. apply last_snoc.
  - rewrite Hlog, !writes_app. unfold world_at_extract, log_at_convert. cbn [log].
    rewrite !writes_app. simpl. rewrite !app_nil_r. f_equal.
    apply (writes_imap (λ k n, dest k n) (λ _ n, entry_data z n)).
  - intros i n Hi. rewrite rmtree_lookup_outside by (by apply dest_path_outside).
    by apply Hnew.
Qed.

Lemma unreadable_entry_witness :
  let E := mkEnv (which Demo.env) (run Demo.env)
             (λ _, Some [("c.gif", Ret [x03]); ("b.jpg", Raise BadZipFile);
                         ("a.png", Ret [x01])])
             (mkdtemp Demo.env) (script_dir Demo.env) in
  snd (unpack_comic_with_calibre E (pathlib.parse "/home/book.mobi") Demo.world)
    = Ret None
  ∧ writes (log (fst (unpack_comic_with_calibre E (pathlib.parse "/home/book.mobi")
                        Demo.world)))
    = [(mkPath "/" ["home"; "book"; "0001.png"], [x01])].
Proof.
  intros E.
  destruct (unreadable_entry_stops_the_extraction E
              (pathlib.parse "/home/book.mobi") Demo.world "/usr/bin/ebook-convert"
              Demo.zip_magic
              [("c.gif", Ret [x03]); ("b.jpg", Raise BadZipFile); ("a.png", Ret [x01])]
              ["a.png"] "b.jpg" ["c.gif"] BadZipFile)
    as (Hret & Hwr & _).
  1-6: vm_compute; reflexivity.
  - intros n Hn. apply list_elem_of_singleton in Hn as ->.
    eexists. vm_compute. reflexivity.
  - vm_compute; reflexivity.
  - vm_compute; reflexivity.
  - apply (bool_decide_unpack _). vm_compute. exact I.
  - apply (bool_decide_unpack _). vm_compute. exact I.
  - split; [exact Hret|]. rewrite Hwr. vm_compute. reflexivity.
Defined.

(** What the guarded extraction has done when it returns a folder. *)
Lemma guarded_extraction_some (E : Env) zip out w w' d :
  try_except (extract_images E zip out) is_BadZipFile
    (λ _, bind (print MsgBadZip) (λ _, ret None)) w = (w', Ret (Some d)) →
  d = out
  ∧ ∃ data z,
      os.node_at (fs w) zip = Some (File data)
      ∧ parse_zip E data = Some z
      ∧ List.filter is_image (zipfile.namelist z) ≠ []
      ∧ log w' = log w ++
          imap (λ k n, EWrite (out /: dest_filename (S k) n) (entry_data z n))
            (sorted (List.filter is_image (zipfile.namelist z)))
          ++ [EPrint (MsgExtracted (length (List.filter is_image (zipfile.namelist z))))].
Proof.
  unfold try_except, extract_images, ZipFile.
  unfold bind at 1. unfold bind at 1. unfold read_fs at 1.
  destruct (os.node_at (fs w) zip) as [[data|]|] eqn:Hz;
    [|unfold_py; simpl; done..].
  destruct (parse_zip E data) as [z|] eqn:Hp; [|unfold_py; simpl; done].
  unfold ret at 1.
  destruct (List.filter is_image (zipfile.namelist z)) as [|n0 l0] eqn:Hf;
    [unfold_py; simpl; done|].
  rewrite <- Hf. unfold bind at 1.
  destruct (for_enumerate 1 _ _ w) as [w1 [[]|e]] eqn:Hloop.
  - apply extract_loop_ret in Hloop. unfold_py. cbn [fs log].
    intros [= <- <-]. split; [done|]. exists data, z. split_and!; try done.
    + by rewrite Hf.
    + cbn [log]. by rewrite Hloop, <- app_assoc.
  - destruct (is_BadZipFile e); unfold_py; simpl; done.
Qed.

(** X14. The unpack step returns a folder only after a complete
    extraction: whenever it returns one, the folder is the output
    directory, the archive could be read and held at least one picture
    name, one file was written for every picture entry, in ascending order
    of the entry names and numbered from 1, and the count of the success
    line, the last line printed, is the number of files written. *)
Theorem returned_folder_holds_every_picture
    (E : Env) (p : Path) (w : World) (d : Path) :
  let w' := fst (unpack_comic_with_calibre E p w) in
  snd (unpack_comic_with_calibre E p w) = Ret (Some d) →
  d = output_dir_of p
  ∧ ∃ data z,
      os.node_at (disk_after_convert E p w) (temp_zip_of E p w) = Some (File data)
      ∧ parse_zip E data = Some z
      ∧ List.filter is_image (zipfile.namelist z) ≠ []
      ∧ writes (log w') =
          writes (log w) ++
            imap (λ i n, (output_dir_of p /:
                            (Str.format_04d (S i) +:+ pathlib.suffix (pathlib.parse n)),
                          entry_data z n))
              (sorted (List.filter is_image (zipfile.namelist z)))
      ∧ last (printed (log w')) =
          Some (MsgExtracted (length (writes (log w')) - length (writes (log w)))).
Proof.
  intros w' Hr.
  destruct (which E "ebook-convert" (fs w)) as [exe|] eqn:Hw.
  2:{ by rewrite unpack_no_tool in Hr. }
  destruct (mkdir_outcome p w) as [[]|e1] eqn:Hm.
  2:{ unfold mkdir_outcome in Hm.
      destruct (os.Path_mkdir true true (output_dir_of p) (fs w)) as [fs1 r1] eqn:Hmk.
      simpl in Hm. subst r1.
      by rewrite (unpack_mkdir_fails E p w exe fs1 e1 Hw Hmk) in Hr. }
  destruct (convert_outcome E p w) as [e1|] eqn:Hc.
  { by rewrite (unpack_convert_failed E p w exe e1) in Hr. }
  unfold w'. rewrite (unpack_converted E p w exe) in Hr |- * by done.
  destruct (try_except _ _ _ (world_at_extract E p w)) as [w3 r3] eqn:Hx.
  cbn [fst snd fs log] in *. subst r3.
  apply guarded_extraction_some in Hx as (-> & data & z & Hz & Hp & Hne & Hlog).
  assert (writes (log w3 ++ [ERmtree (temp_dir_of E p w)]) =
          writes (log w) ++
            imap (λ i n, (output_dir_of p /:
                            (Str.format_04d (S i) +:+ pathlib.suffix (pathlib.parse n)),
                          entry_data z n))
              (sorted (List.filter is_image (zipfile.namelist z)))) as Hwr.
  { rewrite Hlog, !writes_app. unfold world_at_extract, log_at_convert. cbn [log].
    rewrite !writes_app. simpl. rewrite !app_nil_r. f_equal.
    apply (writes_imap
             (λ k n, output_dir_of p /:
                       (Str.format_04d (S k) +:+ pathlib.suffix (pathlib.parse n)))
             (λ _ n, entry_data z n)). }
  split; [done|]. exists data, z.
  split; [done|]. split; [done|]. split; [done|]. split; [exact Hwr|].
  { rewrite Hwr, length_app, length_imap.
    rewrite (Permutation_length (sorted_Permutation _)).
    replace (length (writes (log w)) +
             length (List.filter is_image (zipfile.namelist z)) -
             length (writes (log w)))
      with (length (List.filter is_image (zipfile.namelist z))) by lia.
    rewrite Hlog, !printed_app. simpl. rewrite app_nil_r, app_assoc. apply last_snoc. }
Qed.

Lemma returned_folder_witness :
  output_dir_of (pathlib.parse "/home/book.mobi") = mkPath "/" ["home"; "book"]
  ∧ last (printed (log (fst (unpack_comic_with_calibre Demo.env
                               (pathlib.parse "/home/book.mobi") Demo.world))))
    = Some (MsgExtracted 2).
Proof.
  split; [vm_compute; reflexivity|].
  destruct (returned_folder_holds_every_picture Demo.env
              (pathlib.parse "/home/book.mobi") Demo.world (mkPath "/" ["home"; "book"]))
    as (_ & data & z & _ & _ & _ & _ & Hlast).
  - vm_compute; reflexivity.
  - rewrite Hlast. vm_compute. reflexivity.
Defined.

(** ** A whole turn *)

Lemma unpack_some_inv (E : Env) (p : Path) (w : World) (d : Path) :
  snd (unpack_comic_with_calibre E p w) = Ret (Some d) → d = output_dir_of p.
Proof.
  intros Hr.
  destruct (which E "ebook-convert" (fs w)) as [exe|] eqn:Hw.
  2:{ by rewrite unpack_no_tool in Hr. }
  destruct (mkdir_outcome p w) as [[]|e1] eqn:Hm.
  2:{ unfold mkdir_outcome in Hm.
      destruct (os.Path_mkdir true true (output_dir_of p) (fs w)) as [fs1 r1] eqn:Hmk.
      simpl in Hm. subst r1.
      by rewrite (unpack_mkdir_fails E p w exe fs1 e1 Hw Hmk) in Hr. }
  destruct (convert_outcome E p w) as [e1|] eqn:Hc.
  { by rewrite (unpack_convert_failed E p w exe e1) in Hr. }
  rewrite (unpack_converted E p w exe) in Hr by done.
  destruct (try_except _ _ _ (world_at_extract E p w)) as [w3 r3] eqn:Hx.
  cbn [snd] in Hr. subst r3.
  by apply guarded_extraction_some in Hx as [-> _].
Qed.

(** X15. The programs of one turn: the conversion tool, as the unpack
    step starts it, and after it the packer, started at most once and only
    when the unpack step returned a folder, repacking is switched on and
    KCC lies beside the script; the folder handed to the packer is then
    the output directory of the input of this very turn. *)
Theorem turn_starts_packer_on_its_own_output
    (E : Env) (C : Config) (total i : nat) (f : string) (w : World) :
  let p := pathlib.parse f in
  let wh := after_header total i f w in
  let kcc_path := script_dir E /: KCC_EXE_FILENAME C in
  runs (log (fst (process_file E C total i f w))) =
    runs (log w) ++
      match which E "ebook-convert" (fs wh), mkdir_outcome p wh with
      | Some _, Ret _ =>
          [(["ebook-convert"; pathlib.to_str p;
             pathlib.to_str (temp_dir_of E p wh /: "converted.zip")], false)]
      | _, _ => []
      end ++
      match snd (unpack_comic_with_calibre E p wh) with
      | Ret (Some _) =>
          if REPACK_AFTER_UNPACK C
             && os.is_file (fs (fst (unpack_comic_with_calibre E p wh))) kcc_path
          then [(kcc_command C kcc_path (output_dir_of p), true)]
          else []
      | _ => []
      end.
Proof.
  intros p wh kcc_path. rewrite process_file_unfold. fold p. fold wh.
  pose proof (unpack_runs E p wh) as Hr.
  assert (runs (log wh) = runs (log w)) as Hh.
  { unfold wh, after_header. cbn [log]. rewrite runs_app. simpl. by rewrite app_nil_r. }
  rewrite Hh in Hr. unfold convert_command, temp_zip_of in Hr.
  pose proof (unpack_some_inv E p wh) as Hinv.
  destruct (unpack_comic_with_calibre E p wh) as [w1 [[folder|]|e]];
    cbn [fst snd] in *.
  - rewrite (Hinv folder eq_refl).
    destruct (REPACK_AFTER_UNPACK C); cbn [andb].
    + cbn [fst after_footer log]. rewrite runs_app. simpl. rewrite app_nil_r.
      destruct (os.is_file (fs w1) kcc_path) eqn:Hk.
      * rewrite repack_kcc_present by done. fold kcc_path.
        destruct (run E _ true (fs w1)) as [fs1 [[]|]]; cbn [fst log];
          rewrite !runs_app, Hr; simpl; rewrite ?app_nil_r, <- ?app_assoc; done.
      * rewrite repack_kcc_missing by done. cbn [fst log].
        rewrite runs_app, Hr. simpl. by rewrite !app_nil_r.
    + cbn [fst after_footer log]. rewrite runs_app, Hr. simpl. by rewrite !app_nil_r.
  - cbn [after_footer log]. rewrite runs_app, Hr. simpl. by rewrite !app_nil_r.
  - rewrite Hr. by rewrite app_nil_r.
Qed.
